(** * opendataprojects/analyse.ipynb: row cleaning and summary queries

    A shallow embedding of the notebook's executable cells:
      - [clean] (cell 10), the row cleaner;
      - the loop that fills [data] (cell 11);
      - [most_populated] / [least_populated] (cell 13);
      - the exposure counts and percentages (cell 14).

    Python [dict] objects are mutable and passed by reference, so rows live
    in a store and the functions take and return references into it.
    Exceptions are results of type [result]. *)

From Stdlib Require Import ZArith String Ascii List DecimalString DecimalPos DecimalN.
From Stdlib Require Import Floats.SpecFloat.
From Stdlib Require Import Reals Lra.
From stdpp Require Import base gmap strings list.

Local Open Scope string_scope.
Local Open Scope list_scope.
Local Open Scope Z_scope.

(** ** Values, exceptions, results *)

(** The values a row holds.  [csv.DictReader] produces [str] values and
    fills the missing fields of a short line with [None]; [clean] stores
    [int]s.  (The [restkey] entry of an over-long line, a list under the key
    [None], is not represented: keys are strings.) *)
Inductive value :=
  | VInt (n : Z)
  | VStr (s : string)
  | VNone.

#[global] Instance value_eq_dec : EqDecision value.
Proof. solve_decision. Defined.

(** The Python exceptions the modelled cells can raise.  [Dangling] is not a
    Python exception: it marks a reference that points outside the store,
    which no Python program can build. *)
Inductive exn :=
  | KeyError
  | TypeError
  | ValueError
  | ZeroDivisionError
  | OverflowError
  | IndexError
  | Dangling.

#[global] Instance exn_eq_dec : EqDecision exn.
Proof. solve_decision. Defined.

Inductive result (A : Type) :=
  | Ok (a : A)
  | Raise (e : exn).
Arguments Ok {A} a.
Arguments Raise {A} e.

#[global] Instance result_eq_dec {A} `{EqDecision A} : EqDecision (result A).
Proof. solve_decision. Defined.

Definition rbind {A B} (r : result A) (f : A → result B) : result B :=
  match r with
  | Ok a => f a
  | Raise e => Raise e
  end.

Notation "x ← r ;;; k" := (rbind r (λ x, k))
  (at level 20, r at level 100, k at level 200, right associativity).

(** ** The store of dict objects *)

Abbreviation pydict := (gmap string value).
Abbreviation loc := nat.
Abbreviation heap := (list pydict).

(** A new dict object; its reference is the next free index. *)
Definition alloc (d : pydict) (h : heap) : loc * heap := (length h, h ++ [d]).

(** [row[key]] *)
Definition getitem (h : heap) (row : loc) (key : string) : result value :=
  match h !! row with
  | None => Raise Dangling
  | Some d =>
      match d !! key with
      | Some v => Ok v
      | None => Raise KeyError
      end
  end.

(** [row[key] = v] *)
Definition setitem (h : heap) (row : loc) (key : string) (v : value) : heap :=
  match h !! row with
  | None => h
  | Some d => <[row := <[key := v]> d]> h
  end.

(** [row.keys()], in the iteration order of the dict. *)
Definition keys (h : heap) (row : loc) : list string :=
  match h !! row with
  | None => []
  | Some d => (map_to_list d).*1
  end.

(** ** Python builtins used by the cells *)

(** [a == b] on the modelled values: an [int] never equals a [str]. *)
Definition py_eq (a b : value) : bool := bool_decide (a = b).

(** *** [int(s)] for a string, base 10 (CPython 3.5, the notebook's kernel)

    A [str] is a sequence of code points; here it is the byte string of its
    UTF-8 encoding.  [int] first rewrites the string
    ([_PyUnicode_TransformDecimalAndSpaceToASCII]): a white space character
    outside ASCII becomes a blank, a decimal digit of any script becomes the
    ASCII digit of the same value, and the text is cut after the first other
    character outside ASCII, which becomes a question mark.  The result is
    read by [PyLong_FromString]: leading and trailing ASCII white space is
    skipped, one sign is allowed, at least one digit is required and nothing
    else may follow (no underscores before Python 3.6). *)

(** The code points of a UTF-8 byte string; [None] when the bytes are not
    the encoding of a sequence of code points. *)
Definition continuation (b : N) : bool := ((128 <=? b) && (b <=? 191))%N.

Fixpoint utf8_decode (s : string) : option (list N) :=
  match s with
  | EmptyString => Some []
  | String c0 s1 =>
      let b0 := N_of_ascii c0 in
      if (b0 <? 128)%N then cons b0 <$> utf8_decode s1
      else if (b0 <? 0xC2)%N then None
      else
        match s1 with
        | EmptyString => None
        | String c1 s2 =>
            let b1 := N_of_ascii c1 in
            if negb (continuation b1) then None
            else if (b0 <? 0xE0)%N then
              cons ((b0 - 0xC0) * 64 + (b1 - 128))%N <$> utf8_decode s2
            else
              match s2 with
              | EmptyString => None
              | String c2 s3 =>
                  let b2 := N_of_ascii c2 in
                  if negb (continuation b2) then None
                  else if (b0 <? 0xF0)%N then
                    let cp := ((b0 - 0xE0) * 4096 + (b1 - 128) * 64 + (b2 - 128))%N in
                    if ((cp <? 0x800) || ((0xD800 <=? cp) && (cp <=? 0xDFFF)))%N
                    then None
                    else cons cp <$> utf8_decode s3
                  else
                    match s3 with
                    | EmptyString => None
                    | String c3 s4 =>
                        let b3 := N_of_ascii c3 in
                        let cp := ((b0 - 0xF0) * 262144 + (b1 - 128) * 4096
                                   + (b2 - 128) * 64 + (b3 - 128))%N in
                        if negb (continuation b3) || (0xF4 <? b0)%N
                           || (cp <? 0x10000)%N || (0x10FFFF <? cp)%N
                        then None
                        else cons cp <$> utf8_decode s4
                    end
              end
        end
  end.

(** [Py_UNICODE_ISSPACE] outside ASCII (Unicode 8.0.0, the database of
    Python 3.5). *)
Definition unicode_space (ch : N) : bool :=
  ((ch =? 0x85) || (ch =? 0xA0) || (ch =? 0x1680)
   || ((0x2000 <=? ch) && (ch <=? 0x200A))
   || (ch =? 0x2028) || (ch =? 0x2029) || (ch =? 0x202F)
   || (ch =? 0x205F) || (ch =? 0x3000))%N.

(** The digit zero of every script with decimal digits outside ASCII
    (Unicode 8.0.0); its nine successors are the digits 1 to 9. *)
Definition decimal_zeros : list N :=
  [
    0x660; 0x6F0; 0x7C0; 0x966; 0x9E6; 0xA66;
    0xAE6; 0xB66; 0xBE6; 0xC66; 0xCE6; 0xD66;
    0xDE6; 0xE50; 0xED0; 0xF20; 0x1040; 0x1090;
    0x17E0; 0x1810; 0x1946; 0x19D0; 0x1A80; 0x1A90;
    0x1B50; 0x1BB0; 0x1C40; 0x1C50; 0xA620; 0xA8D0;
    0xA900; 0xA9D0; 0xA9F0; 0xAA50; 0xABF0; 0xFF10;
    0x104A0; 0x11066; 0x110F0; 0x11136; 0x111D0; 0x112F0;
    0x114D0; 0x11650; 0x116C0; 0x11730; 0x118E0; 0x16A60;
    0x16B50; 0x1D7CE; 0x1D7D8; 0x1D7E2; 0x1D7EC; 0x1D7F6 ]%N.

(** [Py_UNICODE_TODECIMAL] *)
Definition unicode_decimal (ch : N) : option N :=
  (λ z, (ch - z)%N) <$> List.find (λ z, ((z <=? ch) && (ch <=? z + 9))%N) decimal_zeros.

(** [_PyUnicode_TransformDecimalAndSpaceToASCII], for a string that is not
    all ASCII. *)
Fixpoint transform_decimal_and_space (cps : list N) : string :=
  match cps with
  | [] => EmptyString
  | ch :: rest =>
      if (ch <? 127)%N then String (ascii_of_N ch) (transform_decimal_and_space rest)
      else if unicode_space ch then String " " (transform_decimal_and_space rest)
      else
        match unicode_decimal ch with
        | Some d => String (ascii_of_N (48 + d)) (transform_decimal_and_space rest)
        | None => "?"
        end
  end.

Definition is_space (c : ascii) : bool :=
  let n := nat_of_ascii c in
  ((9 <=? n)%nat && (n <=? 13)%nat) || (n =? 32)%nat.

Definition digit_of (c : ascii) : option Z :=
  let n := nat_of_ascii c in
  if ((48 <=? n)%nat && (n <=? 57)%nat) then Some (Z.of_nat n - 48) else None.

Fixpoint skip_spaces (s : string) : string :=
  match s with
  | String c s' => if is_space c then skip_spaces s' else s
  | EmptyString => s
  end.

(** The longest run of digits at the head of [s], accumulated onto [acc],
    and what follows it. *)
Fixpoint scan_digits (s : string) (acc : Z) : Z * string :=
  match s with
  | String c s' =>
      match digit_of c with
      | Some d => scan_digits s' (10 * acc + d)
      | None => (acc, s)
      end
  | EmptyString => (acc, s)
  end.

Definition scan_sign (s : string) : bool * string :=
  match s with
  | String "-" s' => (true, s')
  | String "+" s' => (false, s')
  | _ => (false, s)
  end.

(** [PyLong_FromString(s, &end, 10)] with the check that [end] is the end
    of the text. *)
Definition long_from_string (s : string) : option Z :=
  let '(neg, s1) := scan_sign (skip_spaces s) in
  match s1 with
  | EmptyString => None
  | String c _ =>
      match digit_of c with
      | None => None
      | Some _ =>
          let '(n, rest) := scan_digits s1 0 in
          match skip_spaces rest with
          | EmptyString => Some (if neg then - n else n)
          | String _ _ => None
          end
      end
  end.

(** [int(s)]: an all-ASCII string is read as it is, any other after the
    rewriting. *)
Definition int_of_str (s : string) : option Z :=
  match utf8_decode s with
  | None => None
  | Some cps =>
      if forallb (λ ch, (ch <? 128)%N) cps then long_from_string s
      else long_from_string (transform_decimal_and_space cps)
  end.

(** [int(v)] *)
Definition py_int (v : value) : result Z :=
  match v with
  | VInt n => Ok n
  | VStr s =>
      match int_of_str s with
      | Some n => Ok n
      | None => Raise ValueError
      end
  | VNone => Raise TypeError
  end.

(** ** Cell 10: [clean] *)

Definition location_key : string := "Location/Agglomeration".
Definition major_sources : string := "Major sources (outside agglomerations)".
Definition not_applicable : string := "n/a".

(** One iteration of [for key, value in row.items()].  The items view is
    live: [value] is what the dict holds for [key] when the iteration
    reaches it. *)
Definition clean_field (row : loc) (key : string) (h : heap) : result unit * heap :=
  match getitem h row key with
  | Raise e => (Raise e, h)
  | Ok value =>
      let h1 := if py_eq value (VStr not_applicable)
                then setitem h row key (VInt 0) else h in
      match py_int value with
      | Ok n => (Ok (), setitem h1 row key (VInt n))
      | Raise ValueError => (Ok (), h1)
      | Raise e => (Raise e, h1)
      end
  end.

(** A [for] loop over a list, stopped by the first exception. *)
Fixpoint for_each {A} (xs : list A) (body : A → heap → result unit * heap)
    (h : heap) : result unit * heap :=
  match xs with
  | [] => (Ok (), h)
  | x :: xs' =>
      match body x h with
      | (Ok _, h') => for_each xs' body h'
      | (Raise e, h') => (Raise e, h')
      end
  end.

(** [clean(row)]: the result is [None] or the reference it was given. *)
Definition clean (row : loc) (h : heap) : result (option loc) * heap :=
  match getitem h row location_key with
  | Raise e => (Raise e, h)
  | Ok location =>
      if py_eq location (VStr major_sources) then (Ok None, h)
      else
        match for_each (keys h row) (clean_field row) h with
        | (Ok _, h') => (Ok (Some row), h')
        | (Raise e, h') => (Raise e, h')
        end
  end.

(** ** Cell 11: the loop that fills [data] *)

(** [if row:] for the result of [clean]: [None] is false, and a dict is
    true when it is not empty. *)
Definition truthy (h : heap) (r : option loc) : bool :=
  match r with
  | None => false
  | Some l =>
      match h !! l with
      | Some d => bool_decide (d ≠ ∅)
      | None => false
      end
  end.

(** [for row in reader: row = clean(row); if row: data.append(row)].
    The reader is the sequence of the dicts it will yield; each one is a
    new object when the loop receives it. *)
Fixpoint build_from (reader : list pydict) (data : list loc) (h : heap)
    : result (list loc) * heap :=
  match reader with
  | [] => (Ok data, h)
  | raw :: rest =>
      let '(row, h0) := alloc raw h in
      match clean row h0 with
      | (Raise e, h1) => (Raise e, h1)
      | (Ok r, h1) =>
          let data' := match r with
                       | Some l => if truthy h1 r then data ++ [l] else data
                       | None => data
                       end in
          build_from rest data' h1
      end
  end.

(** [data = []] and the loop. *)
Definition build (reader : list pydict) (h : heap) : result (list loc) * heap :=
  build_from reader [] h.

(** ** Cell 13: extremal records *)

Definition population_key : string := "AgglomerationPopulation".

(** [a > b] and [a < b]: defined between two [int]s and between two [str]s
    (code point order), a [TypeError] otherwise. *)
Definition py_gt (a b : value) : result bool :=
  match a, b with
  | VInt x, VInt y => Ok (y <? x)
  | VStr x, VStr y => Ok (String.ltb y x)
  | _, _ => Raise TypeError
  end.

Definition py_lt (a b : value) : result bool :=
  match a, b with
  | VInt x, VInt y => Ok (x <? y)
  | VStr x, VStr y => Ok (String.ltb x y)
  | _, _ => Raise TypeError
  end.

(** CPython's [min_max]: the first item is the candidate, and a later item
    replaces it only when its key compares strictly better ([op] is [>] for
    [max], [<] for [min]). *)
Fixpoint min_max_loop {A} (op : value → value → result bool)
    (key : A → result value) (items : list A) (best : A) (bestval : value)
    : result A :=
  match items with
  | [] => Ok best
  | item :: rest =>
      val ← key item ;;;
      b ← op val bestval ;;;
      if b : bool then min_max_loop op key rest item val
      else min_max_loop op key rest best bestval
  end.

Definition min_max {A} (op : value → value → result bool)
    (key : A → result value) (items : list A) : result A :=
  match items with
  | [] => Raise ValueError
  | item :: rest => val ← key item ;;; min_max_loop op key rest item val
  end.

Definition py_max {A} := @min_max A py_gt.
Definition py_min {A} := @min_max A py_lt.

(** [operator.itemgetter(key)] applied to a row. *)
Definition itemgetter (h : heap) (key : string) (row : loc) : result value :=
  getitem h row key.

Definition most_populated (h : heap) (data : list loc) : result loc :=
  py_max (itemgetter h population_key) data.

Definition least_populated (h : heap) (data : list loc) : result loc :=
  py_min (itemgetter h population_key) data.

(** ** Cell 14: exposure counts and percentages *)

Definition industry_key : string := "Industry_Pop_Lden>=75dB".
Definition railways_key : string := "Railways_Pop_Lden>=75dB".
Definition road_key : string := "Road_Pop_Lden>=75dB".

(** [sum(xs)]: the running total starts at the [int] 0, and adding a [str]
    or [None] to an [int] is a [TypeError]. *)
Fixpoint py_sum_from (xs : list value) (acc : Z) : result Z :=
  match xs with
  | [] => Ok acc
  | VInt n :: rest => py_sum_from rest (acc + n)
  | _ :: _ => Raise TypeError
  end.

Definition py_sum (xs : list value) : result Z := py_sum_from xs 0.

(** [sum([r['Industry_Pop_Lden>=75dB'], r['Railways_Pop_Lden>=75dB'],
         r['Road_Pop_Lden>=75dB']])] *)
Definition high_exposure_count (h : heap) (r : loc) : result Z :=
  a ← getitem h r industry_key ;;;
  b ← getitem h r railways_key ;;;
  c ← getitem h r road_key ;;;
  py_sum [a; b; c].

(** *** Python [float]: IEEE 754 binary64, round to nearest even *)

Definition prec : Z := 53.
Definition emax : Z := 1024.

Definition finite_or_overflow (x : spec_float) : result spec_float :=
  match x with
  | S754_infinity _ => Raise OverflowError
  | _ => Ok x
  end.

(** [float(n)] for an [int]: the nearest float, [OverflowError] beyond the
    range. *)
Definition float_of_int (n : Z) : result spec_float :=
  finite_or_overflow (binary_normalize prec emax n 0 false).

(** [a / b] for two [int]s ([long_true_divide]): the exact quotient rounded
    once. *)
Definition int_truediv (a b : Z) : result spec_float :=
  if b =? 0 then Raise ZeroDivisionError
  else
    match a with
    | Z0 => Ok (S754_zero (b <? 0))
    | _ =>
        finite_or_overflow
          (SFdiv prec emax
             (S754_finite (a <? 0) (Z.to_pos (Z.abs a)) 0)
             (S754_finite (b <? 0) (Z.to_pos (Z.abs b)) 0))
    end.

(** [count / v] where [count] is an [int] and [v] a value of a row. *)
Definition py_truediv (count : Z) (v : value) : result spec_float :=
  match v with
  | VInt p => int_truediv count p
  | _ => Raise TypeError
  end.

(** [x * n] for a [float] and an [int]. *)
Definition float_mul_int (x : spec_float) (n : Z) : result spec_float :=
  y ← float_of_int n ;;; Ok (SFmul prec emax x y).

(** *** ['{0:.2f}'.format(x)] *)

(** [n / d] rounded to the nearest integer, ties to even ([0 < d]). *)
Definition div_half_even (n d : Z) : Z :=
  let q := n / d in
  match (2 * (n mod d) ?= d) with
  | Lt => q
  | Gt => q + 1
  | Eq => if Z.even q then q else q + 1
  end.

(** [m * 2^e] in hundredths, correctly rounded. *)
Definition hundredths (m : positive) (e : Z) : Z :=
  match e with
  | Zneg p => div_half_even (100 * Zpos m) (2 ^ Zpos p)
  | _ => 100 * Zpos m * 2 ^ e
  end.

Definition decimal (n : Z) : string :=
  NilZero.string_of_uint (N.to_uint (Z.to_N n)).

Definition two_digits (n : Z) : string :=
  if n <? 10 then "0" +:+ decimal n else decimal n.

Definition sign_str (s : bool) : string := if s then "-" else "".

Definition format_2f (x : spec_float) : string :=
  match x with
  | S754_nan => "nan"
  | S754_infinity s => sign_str s +:+ "inf"
  | S754_zero s => sign_str s +:+ "0.00"
  | S754_finite s m e =>
      let r := hundredths m e in
      sign_str s +:+ decimal (r / 100) +:+ "." +:+ two_digits (r mod 100)
  end.

(** ['{0:.2f}%'.format((count / r['AgglomerationPopulation']) * 100)] *)
Definition high_exposure_percent (h : heap) (r : loc) (count : Z) : result string :=
  pop ← getitem h r population_key ;;;
  q ← py_truediv count pop ;;;
  x ← float_mul_int q 100 ;;;
  Ok (format_2f x +:+ "%").

Definition most_populated_high_exposure_count (h : heap) (data : list loc) : result Z :=
  r ← most_populated h data ;;; high_exposure_count h r.

Definition most_populated_high_exposure_percent (h : heap) (data : list loc) : result string :=
  r ← most_populated h data ;;;
  count ← high_exposure_count h r ;;;
  high_exposure_percent h r count.

Definition least_populated_high_exposure_count (h : heap) (data : list loc) : result Z :=
  r ← least_populated h data ;;; high_exposure_count h r.

Definition least_populated_high_exposure_percent (h : heap) (data : list loc) : result string :=
  r ← least_populated h data ;;;
  count ← high_exposure_count h r ;;;
  high_exposure_percent h r count.

(** ** Cells 12 and 13: [data[0]], [columns], [rows] *)

(** [xs[i]] for an index that is not negative. *)
Definition py_index {A} (xs : list A) (i : nat) : result A :=
  match xs !! i with
  | Some x => Ok x
  | None => Raise IndexError
  end.

(** [len(row.keys())] *)
Definition len_keys (h : heap) (row : loc) : result nat :=
  match h !! row with
  | None => Raise Dangling
  | Some _ => Ok (length (keys h row))
  end.

(** [columns = len(data[0].keys())] *)
Definition columns (h : heap) (data : list loc) : result nat :=
  row ← py_index data 0 ;;; len_keys h row.

(** [rows = len(data)] *)
Definition rows (data : list loc) : nat := length data.

(** ** Cell 14: the statement *)

(** [str(n)] for an [int]. *)
Definition str_of_int (n : Z) : string :=
  if n <? 0 then "-" +:+ decimal (- n) else decimal n.

(** What [str.format] puts in place of a [{name}] field. *)
Definition py_str (v : value) : string :=
  match v with
  | VInt n => str_of_int n
  | VStr s => s
  | VNone => "None"
  end.

Definition dquote : string := String (ascii_of_nat 34) EmptyString.

(** One half of the template: the sentences about one record. *)
Definition render_record (which : string) (name pop : value) (count : Z)
    (percent : string) : string :=
  "The " +:+ which +:+ " populated " +:+ dquote +:+ "Agglomeration" +:+ dquote +:+
  " is " +:+ dquote +:+ py_str name +:+ dquote +:+
  " with a population of " +:+ py_str pop +:+
  ". Out of this population, " +:+ str_of_int count +:+
  " (" +:+ percent +:+ ") " +:+
  "people are exposed to very high levels of noise pollution from industry, railway and road sources.".

(** The template of [statement], filled in. *)
Definition render_statement (cols nrows : nat)
    (most_name most_pop : value) (most_count : Z) (most_percent : string)
    (least_name least_pop : value) (least_count : Z) (least_percent : string)
    : string :=
  "The data holds " +:+ str_of_int (Z.of_nat cols) +:+
  " columns of data for " +:+ str_of_int (Z.of_nat nrows) +:+
  " different " +:+ dquote +:+ "Agglomerations" +:+ dquote +:+ ".  " +:+
  render_record "most" most_name most_pop most_count most_percent +:+ " " +:+
  render_record "least" least_name least_pop least_count least_percent.

(** Cells 13 and 14 in the order they evaluate, up to [statement]. *)
Definition statement (h : heap) (data : list loc) : result string :=
  cols ← columns h data ;;;
  most ← most_populated h data ;;;
  least ← least_populated h data ;;;
  most_count ← high_exposure_count h most ;;;
  most_percent ← high_exposure_percent h most most_count ;;;
  least_count ← high_exposure_count h least ;;;
  least_percent ← high_exposure_percent h least least_count ;;;
  most_name ← getitem h most location_key ;;;
  most_pop ← getitem h most population_key ;;;
  least_name ← getitem h least location_key ;;;
  least_pop ← getitem h least population_key ;;;
  Ok (render_statement cols (rows data)
        most_name most_pop most_count most_percent
        least_name least_pop least_count least_percent).

(** ** Specification-side definitions

    These follow the words of the specification; the theorems below compare
    them with the cells modelled above. *)

(** The cleaned form of one field: the marker becomes 0, a string that
    parses becomes its integer, anything else is kept. *)
Definition cleaned_value (v : value) : value :=
  match v with
  | VStr s =>
      if bool_decide (s = not_applicable) then VInt 0
      else match int_of_str s with
           | Some n => VInt n
           | None => VStr s
           end
  | _ => v
  end.

Definition cleaned_record (d : pydict) : pydict := cleaned_value <$> d.

(** The exclusion rule. *)
Definition dropped (d : pydict) : bool :=
  bool_decide (d !! location_key = Some (VStr major_sources)).

Definition is_str (v : value) : bool :=
  match v with VStr _ => true | _ => false end.

Definition is_int (v : value) : bool :=
  match v with VInt _ => true | _ => false end.

Definition not_none (v : value) : bool :=
  match v with VNone => false | _ => true end.

(** A value that cleaning leaves alone: an integer, or a string that is
    neither the marker nor parseable. *)
Definition is_clean (v : value) : bool :=
  match v with
  | VInt _ => true
  | VStr s => bool_decide (s ≠ not_applicable) && bool_decide (int_of_str s = None)
  | VNone => false
  end.

Definition all_values (p : value → bool) (d : pydict) : bool :=
  bool_decide (map_Forall (λ _ v, p v = true) d).

Definition has_location (d : pydict) : bool :=
  bool_decide (is_Some (d !! location_key)).

(** A raw record: every column holds a string, the location among them. *)
Definition raw_record (d : pydict) : bool :=
  has_location d && all_values is_str d.

(** What the cleaner processes without a fault: the location is there and,
    unless the record is dropped at once, no field is [None]. *)
Definition cleanable (d : pydict) : bool :=
  has_location d && (dropped d || all_values not_none d).

(** The record the row cleaner returns for the contents [d], run on a store
    that holds nothing else; [None] when it signals a drop or raises. *)
Definition clean_alone (d : pydict) : option pydict :=
  match clean 0%nat [d] with
  | (Ok (Some l), h) => h !! l
  | _ => None
  end.

(** The contents of a row object once the loop is done with it. *)
Definition stored (d : pydict) : pydict :=
  if dropped d then d else cleaned_record d.

(** The references the loop appends when the next free reference is
    [base]: one per record that is not dropped, in input order. *)
Fixpoint kept_from (base : nat) (reader : list pydict) : list loc :=
  match reader with
  | [] => []
  | d :: rest => (if dropped d then [] else [base]) ++ kept_from (S base) rest
  end.

(** The key of an item when it is an integer. *)
Definition key_int {A} (key : A → result value) (x : A) : option Z :=
  match key x with
  | Ok (VInt p) => Some p
  | _ => None
  end.

(** The integer population of a row, if it has one. *)
Definition population (h : heap) (row : loc) : option Z :=
  key_int (itemgetter h population_key) row.

(** [r], with integer key [m], is the first extremal item of [items] for
    the strict order [better]: it beats every earlier item and no later
    item beats it. *)
Definition first_extremal {A} (better : Z → Z → bool) (key : A → result value)
    (items : list A) (r : A) (m : Z) : Prop :=
  ∃ pre post,
    items = pre ++ r :: post ∧ key_int key r = Some m ∧
    Forall (λ x, ∃ p, key_int key x = Some p ∧ better m p = true) pre ∧
    Forall (λ x, ∃ p, key_int key x = Some p ∧ better p m = false) post.

(** [r] is the earliest record of [data] with the largest population:
    every record before it has a smaller population, none after it has a
    larger one. *)
Definition first_maximal (h : heap) (data : list loc) (r : loc) : Prop :=
  ∃ pre post m,
    data = pre ++ r :: post ∧ population h r = Some m ∧
    Forall (λ x, ∃ p, population h x = Some p ∧ p < m) pre ∧
    Forall (λ x, ∃ p, population h x = Some p ∧ p <= m) post.

(** [r] is the earliest record of [data] with the smallest population. *)
Definition first_minimal (h : heap) (data : list loc) (r : loc) : Prop :=
  ∃ pre post m,
    data = pre ++ r :: post ∧ population h r = Some m ∧
    Forall (λ x, ∃ p, population h x = Some p ∧ m < p) pre ∧
    Forall (λ x, ∃ p, population h x = Some p ∧ m <= p) post.

Definition int_populations (h : heap) (data : list loc) : bool :=
  forallb (λ l, bool_decide (is_Some (population h l))) data.

Definition positive_populations (h : heap) (data : list loc) : bool :=
  forallb (λ l, match population h l with Some p => 0 <? p | None => false end) data.

(** (exposure sum / population) * 100 to two decimal places and a percent
    sign, on the numbers. *)
Definition percent_of (count pop : Z) : result string :=
  q ← int_truediv count pop ;;;
  x ← float_mul_int q 100 ;;;
  Ok (format_2f x +:+ "%").

(** [out] is a number of hundredths [hd] written with two decimals and a
    percent sign: an integer part and two digits that read back as
    [hd / 100] and [hd mod 100], where [hd / 100] is [100 * count / pop] up
    to half a hundredth and the relative error [2^-51] of the two
    floating-point operations, that is
    [|hd * pop - 10000 * count| <= pop / 2 + 20000 * count / 2^52]. *)
Definition two_decimal_percent (count pop : Z) (out : string) : Prop :=
  ∃ hd : Z,
    out = (decimal (hd / 100) +:+ "." +:+ two_digits (hd mod 100)) +:+ "%" ∧
    0 <= hd ∧
    int_of_str (decimal (hd / 100)) = Some (hd / 100) ∧
    String.length (two_digits (hd mod 100)) = 2%nat ∧
    int_of_str (two_digits (hd mod 100)) = Some (hd mod 100) ∧
    2 ^ 52 * Z.abs (hd * pop - 10000 * count) <= 2 ^ 51 * pop + 20000 * count.

(** The shift register [mrs] holds the quotient [N / D], a round bit that
    says whether the remainder is at least half of [D], and a sticky bit
    that says whether it is neither zero nor exactly half. *)
Definition shr_tracks (N D : Z) (mrs : shr_record) : Prop :=
  shr_m mrs = N / D ∧
  shr_r mrs = (D <=? 2 * (N mod D)) ∧
  shr_s mrs = negb (N mod D =? 0) && negb (2 * (N mod D) =? D).

(** The number an exposure column contributes: 0 for the marker, the parsed
    integer for a numeric string. *)
Definition exposure_of (s : string) : option Z :=
  if bool_decide (s = not_applicable) then Some 0 else int_of_str s.

(** The column names of a row in the store. *)
Definition column_set (h : heap) (row : loc) : option (gset string) :=
  dom <$> h !! row.

(** A string of ASCII characters only. *)
Fixpoint all_ascii (s : string) : bool :=
  match s with
  | EmptyString => true
  | String c s' => (N_of_ascii c <? 128)%N && all_ascii s'
  end.

(** The dict after the loop has visited the keys [ks]. *)
Definition clean_keys (ks : list string) (d : pydict) : pydict :=
  foldl (λ m k, match m !! k with
                | Some v => <[k := cleaned_value v]> m
                | None => m
                end) d ks.

(** ** Example inputs

    The two raw rows of the specification's end-to-end example, the first of
    them once cleaned, and a small store of records with equal
    populations. *)

Definition example_row_a : pydict :=
  {[ location_key := VStr "A";
     population_key := VStr "100";
     industry_key := VStr "n/a";
     railways_key := VStr "5";
     road_key := VStr "5" ]}.

Definition example_row_major : pydict :=
  {[ location_key := VStr major_sources;
     population_key := VStr "999" ]}.

Definition example_reader : list pydict := [example_row_a; example_row_major].

Definition example_row_a_clean : pydict :=
  {[ location_key := VStr "A";
     population_key := VInt 100;
     industry_key := VInt 0;
     railways_key := VInt 5;
     road_key := VInt 5 ]}.

Definition example_town (name : string) (pop : Z) : pydict :=
  {[ location_key := VStr name; population_key := VInt pop ]}.

Definition example_ties : heap :=
  [ example_town "P" 5; example_town "Q" 9; example_town "R" 9;
    example_town "S" 5 ].

(** The two records of the specification's last example. *)
Definition example_two_towns : heap :=
  [ example_town "Greater London Urban Area" 9300000;
    example_town "Chesterfield/Staveley" 105000 ].

(** A record whose population is 0. *)
Definition example_empty_town : pydict :=
  {[ location_key := VStr "Z";
     population_key := VInt 0;
     industry_key := VInt 0;
     railways_key := VInt 0;
     road_key := VInt 0 ]}.

(** A short line of the file: the population was not filled in. *)
Definition example_short_row : pydict :=
  {[ location_key := VStr "B"; population_key := VNone ]}.

(** A record without the location column. *)
Definition example_no_location : pydict :=
  {[ population_key := VStr "7" ]}.

(** A record whose population did not coerce. *)
Definition example_unknown_town : pydict :=
  {[ location_key := VStr "U";
     population_key := VStr "unknown";
     industry_key := VInt 1;
     railways_key := VStr "unknown";
     road_key := VInt 1 ]}.

(** A store with an integer population, one that did not coerce, and a
    record without the column. *)
Definition example_no_population : pydict :=
  {[ location_key := VStr "N" ]}.

Definition example_mixed : heap :=
  [ example_town "P" 5; example_unknown_town; example_no_population ].

(** ** The row cleaner, field by field *)

Lemma all_values_lookup p d k v :
  all_values p d = true → d !! k = Some v → p v = true.
Proof.
  unfold all_values. intros H Hk.
  apply bool_decide_eq_true in H. exact (H k v Hk).
Qed.

Lemma not_applicable_no_int : int_of_str not_applicable = None.
Proof. reflexivity. Qed.

Lemma major_sources_no_int : int_of_str major_sources = None.
Proof. reflexivity. Qed.

Lemma setitem_lookup h row d k v :
  h !! row = Some d → setitem h row k v = <[row := <[k := v]> d]> h.
Proof. unfold setitem. by intros ->. Qed.

Lemma store_same (h : heap) row (d : pydict) k v :
  h !! row = Some d → d !! k = Some v → <[row := <[k := v]> d]> h = h.
Proof.
  intros Hrow Hk. rewrite (insert_id d k v Hk). by apply list_insert_id.
Qed.

Lemma py_eq_true a b : a = b → py_eq a b = true.
Proof. intros ->. unfold py_eq. by apply bool_decide_eq_true_2. Qed.

Lemma py_eq_false a b : a ≠ b → py_eq a b = false.
Proof. intros H. unfold py_eq. by apply bool_decide_eq_false_2. Qed.

Lemma clean_field_ok h row d k v :
  h !! row = Some d → d !! k = Some v → not_none v = true →
  clean_field row k h = (Ok (), <[row := <[k := cleaned_value v]> d]> h).
Proof.
  intros Hrow Hk Hv. unfold clean_field, getitem. rewrite Hrow, Hk.
  destruct v as [n | s |]; [| | discriminate].
  - rewrite py_eq_false by discriminate. cbn [py_int cleaned_value].
    by rewrite (setitem_lookup _ _ d).
  - cbn [py_int cleaned_value].
    destruct (decide (s = not_applicable)) as [-> | Hne].
    + rewrite py_eq_true by done. rewrite not_applicable_no_int.
      rewrite bool_decide_eq_true_2 by done.
      by rewrite (setitem_lookup _ _ d).
    + rewrite py_eq_false by congruence.
      rewrite bool_decide_eq_false_2 by done.
      destruct (int_of_str s) as [n |].
      * by rewrite (setitem_lookup _ _ d).
      * by rewrite (store_same h row d k).
Qed.

(** One iteration on a [None] field raises and stores nothing. *)
Lemma clean_field_none h row d k :
  h !! row = Some d → d !! k = Some VNone →
  clean_field row k h = (Raise TypeError, h).
Proof.
  intros Hrow Hk. unfold clean_field, getitem. by rewrite Hrow, Hk.
Qed.

Lemma clean_keys_cons k ks d :
  clean_keys (k :: ks) d =
  clean_keys ks (match d !! k with
                 | Some v => <[k := cleaned_value v]> d
                 | None => d
                 end).
Proof. reflexivity. Qed.

Lemma clean_keys_lookup ks : ∀ d k,
  NoDup ks →
  clean_keys ks d !! k = if decide (k ∈ ks) then cleaned_value <$> d !! k else d !! k.
Proof.
  induction ks as [| k0 ks IH]; intros d k Hnd.
  - cbn [clean_keys foldl]. case_decide as Hin; [by apply elem_of_nil in Hin | done].
  - apply NoDup_cons in Hnd as [Hk0 Hnd].
    rewrite clean_keys_cons, IH by done.
    destruct (decide (k = k0)) as [-> | Hne].
    + rewrite decide_False by done.
      rewrite decide_True by (apply elem_of_cons; by left).
      destruct (d !! k0) as [v |] eqn:E.
      * by rewrite lookup_insert_eq.
      * by rewrite E.
    + assert ((match d !! k0 with
               | Some v => <[k0 := cleaned_value v]> d
               | None => d
               end) !! k = d !! k) as ->.
      { destruct (d !! k0); [by rewrite lookup_insert_ne | done]. }
      destruct (decide (k ∈ ks)) as [Hin | Hnin].
      * by rewrite decide_True by (apply elem_of_cons; by right).
      * by rewrite decide_False by (rewrite elem_of_cons; by intros [? | ?]).
Qed.

Lemma clean_keys_all d : clean_keys (map_to_list d).*1 d = cleaned_record d.
Proof.
  apply map_eq. intros k. rewrite clean_keys_lookup by apply NoDup_fst_map_to_list.
  unfold cleaned_record. rewrite lookup_fmap.
  destruct (decide (k ∈ (map_to_list d).*1)) as [Hin | Hnin]; [done |].
  destruct (d !! k) as [v |] eqn:E; [| done].
  exfalso. apply Hnin. apply list_elem_of_fmap. exists (k, v).
  split; [done |]. by apply elem_of_map_to_list.
Qed.

Lemma for_each_clean_ok ks : ∀ h row d,
  h !! row = Some d →
  (∀ k, k ∈ ks → ∃ v, d !! k = Some v ∧ not_none v = true) →
  NoDup ks →
  for_each ks (clean_field row) h = (Ok (), <[row := clean_keys ks d]> h).
Proof.
  induction ks as [| k ks IH]; intros h row d Hrow Hks Hnd.
  - simpl. by rewrite list_insert_id.
  - apply NoDup_cons in Hnd as [Hk Hnd].
    destruct (Hks k) as (v & Hv & Hnn); [apply elem_of_cons; by left |].
    cbn [for_each]. rewrite (clean_field_ok h row d k v) by done.
    assert (row < length h)%nat as Hlt by (by eapply lookup_lt_Some).
    rewrite (IH _ row (<[k := cleaned_value v]> d)); [| | | done].
    + rewrite list_insert_insert_eq, clean_keys_cons. by rewrite Hv.
    + by apply list_lookup_insert_eq.
    + intros k' Hk'. destruct (Hks k') as (v' & Hv' & Hnn'); [apply elem_of_cons; by right |].
      exists v'. split; [| done]. rewrite lookup_insert_ne; [done |].
      intros ->. done.
Qed.

(** Whatever the fields hold, the loop ends normally or with the
    [TypeError] of [int(None)]. *)
Lemma for_each_clean_result ks : ∀ h row d,
  h !! row = Some d →
  (∀ k, k ∈ ks → is_Some (d !! k)) →
  ∃ r h', for_each ks (clean_field row) h = (r, h') ∧
          (r = Ok () ∨ r = Raise TypeError).
Proof.
  induction ks as [| k ks IH]; intros h row d Hrow Hks.
  - exists (Ok ()), h. by split; [| left].
  - destruct (Hks k) as [v Hv]; [apply elem_of_cons; by left |].
    cbn [for_each]. destruct (not_none v) eqn:Hnn.
    + rewrite (clean_field_ok h row d k v) by done.
      assert (row < length h)%nat as Hlt by (by eapply lookup_lt_Some).
      apply (IH _ row (<[k := cleaned_value v]> d)).
      * by apply list_lookup_insert_eq.
      * intros k' Hk'. apply lookup_insert_is_Some'. right. apply Hks.
        apply elem_of_cons. by right.
    + destruct v; try discriminate.
      rewrite (clean_field_none h row d k) by done.
      exists (Raise TypeError), h. by split; [| right].
Qed.

Lemma keys_lookup h row d : h !! row = Some d → keys h row = (map_to_list d).*1.
Proof. unfold keys. by intros ->. Qed.

Lemma elem_of_keys (d : pydict) k : k ∈ (map_to_list d).*1 → is_Some (d !! k).
Proof.
  intros Hin. apply list_elem_of_fmap in Hin as ([k' v] & -> & Hin).
  apply elem_of_map_to_list in Hin. by exists v.
Qed.

Lemma has_location_lookup d :
  has_location d = true → ∃ v, d !! location_key = Some v.
Proof. unfold has_location. intros H. by apply bool_decide_eq_true in H as [v Hv]; exists v. Qed.

Lemma dropped_py_eq d v :
  d !! location_key = Some v → py_eq v (VStr major_sources) = dropped d.
Proof.
  intros Hv. unfold py_eq, dropped. rewrite Hv.
  apply bool_decide_ext. split; congruence.
Qed.

(** The three outcomes of [clean], by the contents of the row. *)
Lemma clean_no_location h row d :
  h !! row = Some d → d !! location_key = None →
  clean row h = (Raise KeyError, h).
Proof. intros Hrow Hk. unfold clean, getitem. by rewrite Hrow, Hk. Qed.

Lemma clean_dropped h row d :
  h !! row = Some d → dropped d = true → clean row h = (Ok None, h).
Proof.
  intros Hrow Hd. unfold clean, getitem. rewrite Hrow.
  pose proof Hd as Hd'. unfold dropped in Hd'. apply bool_decide_eq_true in Hd'.
  rewrite Hd'. by rewrite (dropped_py_eq d), Hd.
Qed.

Lemma clean_kept h row d :
  h !! row = Some d → cleanable d = true → dropped d = false →
  clean row h = (Ok (Some row), <[row := cleaned_record d]> h).
Proof.
  intros Hrow Hc Hd. unfold cleanable in Hc. rewrite Hd in Hc.
  apply andb_true_iff in Hc as [Hl Hnn]. cbn [orb] in Hnn.
  apply has_location_lookup in Hl as [v Hv].
  unfold clean, getitem. rewrite Hrow, Hv, (dropped_py_eq d), Hd by done.
  rewrite (keys_lookup h row d) by done.
  rewrite (for_each_clean_ok _ h row d); [by rewrite clean_keys_all | done | | ].
  - intros k Hk. apply elem_of_keys in Hk as [w Hw]. exists w. split; [done |].
    by eapply all_values_lookup.
  - apply NoDup_fst_map_to_list.
Qed.

Lemma clean_raises h row d e h' :
  h !! row = Some d → is_Some (d !! location_key) →
  clean row h = (Raise e, h') → e = TypeError.
Proof.
  intros Hrow [v Hv]. unfold clean, getitem. rewrite Hrow, Hv.
  destruct (py_eq v (VStr major_sources)); [discriminate |].
  rewrite (keys_lookup h row d) by done.
  destruct (for_each_clean_result (map_to_list d).*1 h row d Hrow)
    as (r & h1 & -> & [-> | ->]); [by intros k; apply elem_of_keys | |].
  - discriminate.
  - congruence.
Qed.

(** A [None] field that the loop reaches stops it. *)
Lemma for_each_clean_none ks : ∀ h row d,
  h !! row = Some d →
  (∀ k, k ∈ ks → is_Some (d !! k)) →
  (∃ k, k ∈ ks ∧ d !! k = Some VNone) →
  ∃ h', for_each ks (clean_field row) h = (Raise TypeError, h').
Proof.
  induction ks as [| k0 ks IH]; intros h row d Hrow Hks (k & Hin & Hk).
  - by apply elem_of_nil in Hin.
  - destruct (Hks k0) as [v Hv]; [apply elem_of_cons; by left |].
    cbn [for_each]. destruct (not_none v) eqn:Hnn.
    + rewrite (clean_field_ok h row d k0 v) by done.
      assert (row < length h)%nat as Hlt by (by eapply lookup_lt_Some).
      assert (k ≠ k0) as Hne by (intros ->; rewrite Hk in Hv; by inversion Hv; subst).
      apply (IH _ row (<[k0 := cleaned_value v]> d)).
      * by apply list_lookup_insert_eq.
      * intros k' Hk'. apply lookup_insert_is_Some'. right. apply Hks.
        apply elem_of_cons. by right.
      * exists k. split.
        -- apply elem_of_cons in Hin as [? | ?]; done.
        -- by rewrite lookup_insert_ne.
    + destruct v; try discriminate.
      rewrite (clean_field_none h row d k0) by done. by exists h.
Qed.

Lemma all_values_false p d :
  all_values p d = false → ∃ k v, d !! k = Some v ∧ p v = false.
Proof.
  unfold all_values. intros H. apply bool_decide_eq_false in H.
  apply map_not_Forall in H; [| apply _].
  destruct H as (k & v & Hk & Hp). exists k, v. split; [done |].
  by destruct (p v).
Qed.

(** [clean] returns normally exactly on the cleanable rows. *)
Lemma clean_ok_cleanable h row d r h' :
  h !! row = Some d → clean row h = (Ok r, h') → cleanable d = true.
Proof.
  intros Hrow Hc. unfold cleanable.
  destruct (d !! location_key) as [v |] eqn:Hv.
  - unfold has_location. rewrite Hv, bool_decide_eq_true_2 by done. cbn [andb].
    destruct (dropped d) eqn:Hd; [done |]. cbn [orb].
    destruct (all_values not_none d) eqn:Hnn; [done |]. exfalso.
    apply all_values_false in Hnn as (k & w & Hk & Hw).
    destruct w; try discriminate.
    revert Hc. unfold clean, getitem.
    rewrite Hrow, Hv, (dropped_py_eq d), Hd, (keys_lookup h row d) by done.
    destruct (for_each_clean_none (map_to_list d).*1 h row d Hrow) as [h1 ->].
    + by intros k'; apply elem_of_keys.
    + exists k. split; [| done]. apply list_elem_of_fmap. exists (k, VNone).
      split; [done |]. by apply elem_of_map_to_list.
    + discriminate.
  - by rewrite (clean_no_location h row d) in Hc.
Qed.

(** A row that [clean] hands back is the caller's row, cleaned in place. *)
Lemma clean_ok_some h row d r h' :
  h !! row = Some d → clean row h = (Ok (Some r), h') →
  r = row ∧ dropped d = false ∧ h' = <[row := cleaned_record d]> h.
Proof.
  intros Hrow Hc. pose proof (clean_ok_cleanable _ _ _ _ _ Hrow Hc) as Hcl.
  destruct (dropped d) eqn:Hd.
  - by rewrite (clean_dropped h row d) in Hc.
  - rewrite (clean_kept h row d) in Hc by done. by inversion Hc.
Qed.

Lemma clean_ok_none h row d h' :
  h !! row = Some d → clean row h = (Ok None, h') →
  dropped d = true ∧ h' = h.
Proof.
  intros Hrow Hc. pose proof (clean_ok_cleanable _ _ _ _ _ Hrow Hc) as Hcl.
  destruct (dropped d) eqn:Hd.
  - rewrite (clean_dropped h row d) in Hc by done. by inversion Hc.
  - by rewrite (clean_kept h row d) in Hc.
Qed.

Lemma getitem_cleaned h row d k v :
  h !! row = Some d → d !! k = Some v →
  getitem (<[row := cleaned_record d]> h) row k = Ok (cleaned_value v).
Proof.
  intros Hrow Hk. unfold getitem.
  rewrite list_lookup_insert_eq by (by eapply lookup_lt_Some).
  unfold cleaned_record. by rewrite lookup_fmap, Hk.
Qed.

(** [clean] touches no other object of the store, whatever it returns. *)
Lemma setitem_frame h row k v l : l ≠ row → setitem h row k v !! l = h !! l.
Proof.
  intros Hne. unfold setitem. destruct (h !! row); [| done].
  by apply list_lookup_insert_ne.
Qed.

Lemma setitem_length h row k v : length (setitem h row k v) = length h.
Proof. unfold setitem. destruct (h !! row); [apply length_insert | done]. Qed.

Lemma clean_field_frame row k h l :
  l ≠ row → (clean_field row k h).2 !! l = h !! l.
Proof.
  intros Hne. unfold clean_field. destruct (getitem h row k) as [v | e]; [| done].
  assert ((if py_eq v (VStr not_applicable)
           then setitem h row k (VInt 0) else h) !! l = h !! l) as Hh1.
  { destruct (py_eq v (VStr not_applicable)); [by apply setitem_frame | done]. }
  destruct (py_int v) as [n | []]; cbn [snd]; try done.
  by rewrite setitem_frame.
Qed.

Lemma clean_field_length row k h : length (clean_field row k h).2 = length h.
Proof.
  unfold clean_field. destruct (getitem h row k) as [v | e]; [| done].
  assert (length (if py_eq v (VStr not_applicable)
                  then setitem h row k (VInt 0) else h) = length h) as Hh1.
  { destruct (py_eq v (VStr not_applicable)); [apply setitem_length | done]. }
  destruct (py_int v) as [n | []]; cbn [snd]; try done.
  by rewrite setitem_length.
Qed.

Lemma for_each_clean_frame row ks : ∀ h l,
  l ≠ row → (for_each ks (clean_field row) h).2 !! l = h !! l.
Proof.
  induction ks as [| k ks IH]; intros h l Hne; [done |].
  cbn [for_each]. pose proof (clean_field_frame row k h l Hne) as Hf.
  destruct (clean_field row k h) as [[[] | e] h1]; cbn [snd] in *.
  - by rewrite IH.
  - done.
Qed.

Lemma for_each_clean_length row ks : ∀ h,
  length (for_each ks (clean_field row) h).2 = length h.
Proof.
  induction ks as [| k ks IH]; intros h; [done |].
  cbn [for_each]. pose proof (clean_field_length row k h) as Hf.
  destruct (clean_field row k h) as [[[] | e] h1]; cbn [snd] in *.
  - by rewrite IH.
  - done.
Qed.

Lemma clean_frame row h l : l ≠ row → (clean row h).2 !! l = h !! l.
Proof.
  intros Hne. unfold clean. destruct (getitem h row location_key) as [v | e]; [| done].
  destruct (py_eq v (VStr major_sources)); [done |].
  pose proof (for_each_clean_frame row (keys h row) h l Hne) as Hf.
  by destruct (for_each (keys h row) (clean_field row) h) as [[[] | e] h1].
Qed.

Lemma clean_length row h : length (clean row h).2 = length h.
Proof.
  unfold clean. destruct (getitem h row location_key) as [v | e]; [| done].
  destruct (py_eq v (VStr major_sources)); [done |].
  pose proof (for_each_clean_length row (keys h row) h) as Hf.
  by destruct (for_each (keys h row) (clean_field row) h) as [[[] | e] h1].
Qed.

(** A value that is already clean is its own cleaned form. *)
Lemma cleaned_value_clean v : is_clean v = true → cleaned_value v = v.
Proof.
  destruct v as [n | s |]; [done | | discriminate].
  cbn [is_clean cleaned_value]. intros H. apply andb_true_iff in H as [H1 H2].
  apply bool_decide_eq_true in H1, H2.
  by rewrite bool_decide_eq_false_2, H2.
Qed.

Lemma is_clean_not_none v : is_clean v = true → not_none v = true.
Proof. by destruct v. Qed.

Lemma cleaned_value_is_clean v : not_none v = true → is_clean (cleaned_value v) = true.
Proof.
  destruct v as [n | s |]; [done | | discriminate]. intros _.
  cbn [cleaned_value]. case_bool_decide as Hna; [done |].
  destruct (int_of_str s) eqn:E; [done |]. cbn [is_clean].
  by rewrite bool_decide_eq_true_2, bool_decide_eq_true_2.
Qed.

Lemma cleaned_record_clean d : all_values is_clean d = true → cleaned_record d = d.
Proof.
  intros H. apply map_eq. intros k. unfold cleaned_record. rewrite lookup_fmap.
  destruct (d !! k) as [v |] eqn:E; [| done]. cbn.
  by rewrite cleaned_value_clean by (by eapply all_values_lookup).
Qed.

Lemma all_values_impl (p q : value → bool) d :
  (∀ v, p v = true → q v = true) → all_values p d = true → all_values q d = true.
Proof.
  intros Hpq H. unfold all_values in *. apply bool_decide_eq_true in H.
  apply bool_decide_eq_true. intros k v Hk. apply Hpq. by apply (H k v).
Qed.

(** ** The loop that fills [data] *)

Lemma alloc_lookup (d : pydict) (h : heap) : (h ++ [d]) !! length h = Some d.
Proof. by rewrite lookup_app_r, Nat.sub_diag. Qed.

Lemma store_last (h : heap) (d d' : pydict) :
  <[length h := d']> (h ++ [d]) = h ++ [d'].
Proof. by rewrite insert_app_r_alt, Nat.sub_diag. Qed.

Lemma cleanable_location d : cleanable d = true → ∃ v, d !! location_key = Some v.
Proof.
  unfold cleanable. intros H. apply andb_true_iff in H as [H _].
  by apply has_location_lookup.
Qed.

Lemma cleaned_record_nonempty d : cleanable d = true → cleaned_record d ≠ ∅.
Proof.
  intros [v Hv]%cleanable_location Hempty.
  assert (cleaned_record d !! location_key = Some (cleaned_value v)) as H.
  { unfold cleaned_record. by rewrite lookup_fmap, Hv. }
  by rewrite Hempty, lookup_empty in H.
Qed.

(** One round of the loop on a cleanable record. *)
Lemma build_from_cons d reader data h :
  cleanable d = true →
  build_from (d :: reader) data h =
  build_from reader (data ++ (if dropped d then [] else [length h])) (h ++ [stored d]).
Proof.
  intros Hc. cbn [build_from alloc]. unfold stored.
  destruct (dropped d) eqn:Hd.
  - rewrite (clean_dropped _ _ d) by (done || apply alloc_lookup).
    by rewrite app_nil_r.
  - rewrite (clean_kept _ _ d) by (done || apply alloc_lookup).
    rewrite store_last. cbn [truthy]. rewrite alloc_lookup.
    by rewrite bool_decide_eq_true_2 by (by apply cleaned_record_nonempty).
Qed.

Lemma build_from_total reader : ∀ data h,
  forallb cleanable reader = true →
  build_from reader data h =
  (Ok (data ++ kept_from (length h) reader), h ++ (stored <$> reader)).
Proof.
  induction reader as [| d reader IH]; intros data h Hall.
  - cbn. by rewrite !app_nil_r.
  - cbn [forallb] in Hall. apply andb_true_iff in Hall as [Hd Hall].
    rewrite build_from_cons, IH by done.
    rewrite length_app, Nat.add_1_r. cbn [kept_from fmap list_fmap].
    by rewrite <- !app_assoc.
Qed.

Lemma build_from_ok_cleanable reader : ∀ data h data' h',
  build_from reader data h = (Ok data', h') → forallb cleanable reader = true.
Proof.
  induction reader as [| d reader IH]; intros data h data' h' Hb; [done |].
  cbn [build_from alloc] in Hb.
  destruct (clean (length h) (h ++ [d])) as [[r | e] h1] eqn:Hc; [| discriminate].
  cbn [forallb]. apply andb_true_iff. split.
  - eapply clean_ok_cleanable; [apply alloc_lookup | exact Hc].
  - eapply IH. exact Hb.
Qed.

(** The loop returns normally exactly when every record is cleanable, and
    then with this dataset and this store. *)
Lemma build_ok reader h data h' :
  build reader h = (Ok data, h') →
  forallb cleanable reader = true ∧
  data = kept_from (length h) reader ∧ h' = h ++ (stored <$> reader).
Proof.
  intros Hb. pose proof (build_from_ok_cleanable _ _ _ _ _ Hb) as Hall.
  unfold build in Hb. rewrite build_from_total in Hb by done.
  by inversion Hb.
Qed.

Lemma elem_of_kept_from reader : ∀ base l,
  l ∈ kept_from base reader ↔
  ∃ j d, l = (base + j)%nat ∧ reader !! j = Some d ∧ dropped d = false.
Proof.
  induction reader as [| d reader IH]; intros base l.
  - cbn. rewrite elem_of_nil. split; [done |]. by intros (j & d & _ & ? & _).
  - cbn [kept_from]. rewrite elem_of_app, IH. split.
    + intros [Hl | (j & d' & -> & Hj & Hd')].
      * destruct (dropped d) eqn:Hd; [by apply elem_of_nil in Hl |].
        apply list_elem_of_singleton in Hl as ->. exists 0%nat, d.
        by rewrite Nat.add_0_r.
      * exists (S j), d'. split; [lia | done].
    + intros ([| j] & d' & -> & Hj & Hd').
      * left. cbn in Hj. inversion Hj; subst. rewrite Hd', Nat.add_0_r.
        by apply list_elem_of_singleton.
      * right. exists j, d'. split; [lia | done].
Qed.

Lemma stored_lookup (h : heap) reader j d :
  reader !! j = Some d → (h ++ (stored <$> reader)) !! (length h + j)%nat = Some (stored d).
Proof.
  intros Hj. rewrite lookup_app_r by lia.
  replace (length h + j - length h)%nat with j by lia.
  by rewrite list_lookup_fmap, Hj.
Qed.

Lemma kept_from_records reader : ∀ h : heap,
  (λ l, (h ++ (stored <$> reader)) !! l) <$> kept_from (length h) reader =
  Some <$> (cleaned_record <$> filter (λ d, dropped d = false) reader).
Proof.
  induction reader as [| d reader IH]; intros h; [done |].
  cbn [kept_from]. rewrite fmap_app.
  pose proof (IH (h ++ [stored d])) as IH'.
  rewrite length_app, Nat.add_1_r, <- app_assoc in IH'. cbn [app fmap list_fmap] in *.
  rewrite IH'. rewrite filter_cons. destruct (dropped d) eqn:Hd.
  - by rewrite decide_False by done.
  - rewrite decide_True by done. cbn [fmap list_fmap app].
    f_equal. rewrite lookup_app_r, Nat.sub_diag by done.
    unfold stored. by rewrite Hd.
Qed.

(** The cleaner run on a record alone, by the specification's words. *)
Lemma clean_alone_cleanable d :
  cleanable d = true →
  clean_alone d = if dropped d then None else Some (cleaned_record d).
Proof.
  intros Hc. unfold clean_alone. destruct (dropped d) eqn:Hd.
  - by rewrite (clean_dropped [d] 0 d).
  - by rewrite (clean_kept [d] 0 d).
Qed.

Lemma omap_clean_alone reader :
  forallb cleanable reader = true →
  omap clean_alone reader = cleaned_record <$> filter (λ d, dropped d = false) reader.
Proof.
  induction reader as [| d reader IH]; intros Hall; [done |].
  cbn [forallb] in Hall. apply andb_true_iff in Hall as [Hd Hall].
  cbn [omap list_omap]. rewrite clean_alone_cleanable, filter_cons by done.
  fold (omap clean_alone reader). rewrite IH by done.
  destruct (dropped d).
  - by rewrite decide_False by done.
  - by rewrite decide_True by done.
Qed.

Lemma kept_from_app r1 : ∀ r2 base,
  kept_from base (r1 ++ r2) = kept_from base r1 ++ kept_from (base + length r1) r2.
Proof.
  induction r1 as [| d r1 IH]; intros r2 base.
  - cbn. by rewrite Nat.add_0_r.
  - cbn [app kept_from length]. rewrite IH, <- app_assoc.
    by replace (S base + length r1)%nat with (base + S (length r1))%nat by lia.
Qed.

(** ** Extremal selection *)

Lemma key_int_Some {A} (key : A → result value) x p :
  key_int key x = Some p → key x = Ok (VInt p).
Proof.
  unfold key_int. destruct (key x) as [[n | s |] | e]; try discriminate.
  by intros [= ->].
Qed.

Section ExtremalSelection.
Context {A : Type}.
Variable op : value → value → result bool.
Variable better : Z → Z → bool.
Variable key : A → result value.

Hypothesis op_int : ∀ a b, op (VInt a) (VInt b) = Ok (better a b).
Hypothesis better_trans : ∀ a b c,
  better a b = true → better b c = true → better a c = true.
Hypothesis better_neg_trans : ∀ a b c,
  better a b = true → better c b = false → better a c = true.

(** The scan keeps its candidate unless a later item is strictly better,
    and then it ends on the first best of the later items. *)
Lemma min_max_loop_first items : ∀ best m,
  Forall (λ x, is_Some (key_int key x)) items →
  ∃ r, min_max_loop op key items best (VInt m) = Ok r ∧
    ((r = best ∧
      Forall (λ x, ∃ p, key_int key x = Some p ∧ better p m = false) items) ∨
     (∃ mr, better mr m = true ∧ first_extremal better key items r mr)).
Proof.
  induction items as [| item rest IH]; intros best m Hint.
  - exists best. split; [done |]. left. by split.
  - apply Forall_cons in Hint as [[p Hp] Hint].
    cbn [min_max_loop]. rewrite (key_int_Some _ _ _ Hp). cbn [rbind].
    rewrite op_int. cbn [rbind]. destruct (better p m) eqn:Hpm.
    + destruct (IH item p Hint) as (r & -> & Hr). exists r. split; [done |].
      right. destruct Hr as [[-> Hrest] | (mr & Hmr & pre & post & -> & Hk & Hpre & Hpost)].
      * exists p. split; [done |]. exists [], rest. by repeat split.
      * exists mr. split; [by eapply better_trans |].
        exists (item :: pre), post. repeat split; try done.
        apply Forall_cons. split; [by exists p | done].
    + destruct (IH best m Hint) as (r & -> & Hr). exists r. split; [done |].
      destruct Hr as [[-> Hrest] | (mr & Hmr & pre & post & -> & Hk & Hpre & Hpost)].
      * left. split; [done |]. apply Forall_cons. split; [by exists p | done].
      * right. exists mr. split; [done |].
        exists (item :: pre), post. repeat split; try done.
        apply Forall_cons. split; [| done].
        exists p. split; [done |]. by eapply better_neg_trans.
Qed.

Lemma min_max_first items :
  items ≠ [] →
  Forall (λ x, is_Some (key_int key x)) items →
  ∃ r m, min_max op key items = Ok r ∧ first_extremal better key items r m.
Proof.
  destruct items as [| first rest]; [done |]. intros _ Hint.
  apply Forall_cons in Hint as [[m Hm] Hint].
  cbn [min_max]. rewrite (key_int_Some _ _ _ Hm). cbn [rbind].
  destruct (min_max_loop_first rest first m Hint) as (r & -> & Hr).
  destruct Hr as [[-> Hrest] | (mr & Hmr & pre & post & -> & Hk & Hpre & Hpost)].
  - exists first, m. split; [done |]. exists [], rest. by repeat split.
  - exists r, mr. split; [done |]. exists (first :: pre), post.
    repeat split; try done. apply Forall_cons. split; [by exists m | done].
Qed.
End ExtremalSelection.

Lemma int_populations_Forall h data :
  int_populations h data = true →
  Forall (λ x, is_Some (key_int (itemgetter h population_key) x)) data.
Proof.
  unfold int_populations. intros H. apply Forall_forall. intros x Hx.
  rewrite forallb_forall in H. apply list_elem_of_In in Hx.
  specialize (H x Hx). by apply bool_decide_eq_true in H.
Qed.

Lemma most_populated_first h data :
  data ≠ [] → int_populations h data = true →
  ∃ r, most_populated h data = Ok r ∧ first_maximal h data r.
Proof.
  intros Hne Hint.
  destruct (min_max_first py_gt (λ a b, b <? a) (itemgetter h population_key))
    with (items := data) as (r & m & Hr & pre & post & -> & Hk & Hpre & Hpost).
  - done.
  - intros a b c. rewrite !Z.ltb_lt. lia.
  - intros a b c. rewrite Z.ltb_lt, Z.ltb_ge, Z.ltb_lt. lia.
  - done.
  - by apply int_populations_Forall.
  - exists r. split; [done |]. exists pre, post, m. repeat split; try done.
    + eapply Forall_impl; [exact Hpre |]. intros x (p & Hp & Hlt).
      exists p. split; [done |]. by apply Z.ltb_lt.
    + eapply Forall_impl; [exact Hpost |]. intros x (p & Hp & Hlt).
      exists p. split; [done |]. by apply Z.ltb_ge.
Qed.

Lemma least_populated_first h data :
  data ≠ [] → int_populations h data = true →
  ∃ r, least_populated h data = Ok r ∧ first_minimal h data r.
Proof.
  intros Hne Hint.
  destruct (min_max_first py_lt (λ a b, a <? b) (itemgetter h population_key))
    with (items := data) as (r & m & Hr & pre & post & -> & Hk & Hpre & Hpost).
  - done.
  - intros a b c. rewrite !Z.ltb_lt. lia.
  - intros a b c. rewrite Z.ltb_lt, Z.ltb_ge, Z.ltb_lt. lia.
  - done.
  - by apply int_populations_Forall.
  - exists r. split; [done |]. exists pre, post, m. repeat split; try done.
    + eapply Forall_impl; [exact Hpre |]. intros x (p & Hp & Hlt).
      exists p. split; [done |]. by apply Z.ltb_lt.
    + eapply Forall_impl; [exact Hpost |]. intros x (p & Hp & Hlt).
      exists p. split; [done |]. by apply Z.ltb_ge.
Qed.

(** ** Exposure counts and percentages *)

Lemma high_exposure_count_ints h r a b c :
  getitem h r industry_key = Ok (VInt a) →
  getitem h r railways_key = Ok (VInt b) →
  getitem h r road_key = Ok (VInt c) →
  high_exposure_count h r = Ok (a + b + c).
Proof.
  intros Ha Hb Hc. unfold high_exposure_count. rewrite Ha, Hb, Hc.
  cbn [rbind py_sum py_sum_from]. by rewrite Z.add_0_l.
Qed.

Lemma high_exposure_percent_int h r count p :
  getitem h r population_key = Ok (VInt p) →
  high_exposure_percent h r count = percent_of count p.
Proof. intros Hp. unfold high_exposure_percent. by rewrite Hp. Qed.

Lemma py_sum_from_raises xs : ∀ acc e, py_sum_from xs acc = Raise e → e = TypeError.
Proof.
  induction xs as [| [n | s |] xs IH]; intros acc e; cbn [py_sum_from];
    try congruence.
  apply IH.
Qed.

Lemma getitem_raises h r k e :
  getitem h r k = Raise e → e = KeyError ∨ e = Dangling.
Proof.
  unfold getitem. destruct (h !! r) as [d |]; [| intros [= <-]; by right].
  destruct (d !! k); [done | intros [= <-]; by left].
Qed.

(** Summing the three fields never divides. *)
Lemma high_exposure_count_no_division h r :
  high_exposure_count h r ≠ Raise ZeroDivisionError.
Proof.
  unfold high_exposure_count.
  destruct (getitem h r industry_key) as [a | e] eqn:Ha;
    [| by apply getitem_raises in Ha as [-> | ->]].
  destruct (getitem h r railways_key) as [b | e] eqn:Hb;
    [| by apply getitem_raises in Hb as [-> | ->]].
  destruct (getitem h r road_key) as [c | e] eqn:Hc;
    [| by apply getitem_raises in Hc as [-> | ->]].
  cbn [rbind]. intros H. by apply py_sum_from_raises in H.
Qed.

Lemma finite_or_overflow_raises x e :
  finite_or_overflow x = Raise e → e = OverflowError.
Proof. destruct x; cbn; congruence. Qed.

(** With a divisor that is not zero the only fault of the division is an
    overflow. *)
Lemma int_truediv_raises a b e :
  b ≠ 0 → int_truediv a b = Raise e → e = OverflowError.
Proof.
  intros Hb. unfold int_truediv. rewrite (proj2 (Z.eqb_neq b 0) Hb).
  destruct a; [done | |]; apply finite_or_overflow_raises.
Qed.

Lemma int_truediv_zero a : int_truediv a 0 = Raise ZeroDivisionError.
Proof. reflexivity. Qed.

Lemma percent_of_raises count p e :
  p ≠ 0 → percent_of count p = Raise e → e = OverflowError.
Proof.
  intros Hp. unfold percent_of.
  destruct (int_truediv count p) as [q | e'] eqn:Hq.
  - cbn [rbind]. unfold float_mul_int.
    destruct (float_of_int 100) as [y | e'] eqn:Hy; [done |].
    cbn [rbind]. intros [= <-]. by apply finite_or_overflow_raises in Hy.
  - cbn [rbind]. intros [= <-]. by eapply int_truediv_raises.
Qed.

(** *** Two decimal places *)

(** [div_half_even] is a nearest integer, and the even one at a tie. *)
Lemma div_half_even_nearest n d :
  0 < d → 2 * Z.abs (n - div_half_even n d * d) <= d.
Proof.
  intros Hd. unfold div_half_even.
  pose proof (Z.div_mod n d ltac:(lia)) as Hdm.
  pose proof (Z.mod_pos_bound n d Hd) as Hm.
  destruct (Z.compare_spec (2 * (n mod d)) d) as [He | Hl | Hg];
    [destruct (Z.even (n / d)) |..]; nia.
Qed.

Lemma div_half_even_tie n d :
  0 < d → 2 * (n mod d) = d → Z.even (div_half_even n d) = true.
Proof.
  intros Hd Ht. unfold div_half_even. rewrite Ht, Z.compare_refl.
  destruct (Z.even (n / d)) eqn:He; [done |].
  rewrite Z.even_add, He. reflexivity.
Qed.

Lemma two_digits_length n : 0 <= n < 100 → String.length (two_digits n) = 2%nat.
Proof.
  intros Hn.
  assert (forallb (λ k, Nat.eqb (String.length (two_digits k)) 2) (seqZ 0 100) = true)
    as Hall by (vm_compute; reflexivity).
  rewrite forallb_forall in Hall. apply Nat.eqb_eq, Hall.
  apply list_elem_of_In, elem_of_seqZ. lia.
Qed.

Lemma hundredths_nonneg m e : 0 <= hundredths m e.
Proof.
  unfold hundredths. destruct e as [| p | p].
  - lia.
  - pose proof (Z.pow_pos_nonneg 2 (Z.pos p)). lia.
  - unfold div_half_even.
    assert (0 < 2 ^ Z.pos p) as Hd by (apply Z.pow_pos_nonneg; lia).
    pose proof (Z.div_pos (100 * Z.pos m) (2 ^ Z.pos p) ltac:(lia) Hd).
    destruct (2 * ((100 * Z.pos m) mod 2 ^ Z.pos p) ?= 2 ^ Z.pos p);
      [destruct (Z.even _) |..]; lia.
Qed.

(** A finite float is printed with a point followed by exactly two
    digits. *)
Lemma format_2f_finite s m e :
  ∃ ip fp, format_2f (S754_finite s m e) = sign_str s +:+ ip +:+ "." +:+ fp ∧
           String.length fp = 2%nat.
Proof.
  exists (decimal (hundredths m e / 100)), (two_digits (hundredths m e mod 100)).
  split; [reflexivity |]. apply two_digits_length. apply Z.mod_pos_bound. lia.
Qed.

(** ** [int] on ASCII strings and on decimal numerals *)

Lemma utf8_decode_ascii s :
  all_ascii s = true →
  ∃ cps, utf8_decode s = Some cps ∧ forallb (λ ch, (ch <? 128)%N) cps = true.
Proof.
  induction s as [| c s IH]; intros Ha.
  - by exists [].
  - cbn [all_ascii] in Ha. apply andb_true_iff in Ha as [Hc Ha].
    destruct (IH Ha) as (cps & Hd & Hall). exists (N_of_ascii c :: cps).
    cbn [utf8_decode]. cbv zeta. rewrite Hc, Hd. split; [done |].
    cbn [forallb]. by rewrite Hc, Hall.
Qed.

(** An all-ASCII string is read by [PyLong_FromString] as it is. *)
Lemma int_of_str_ascii s :
  all_ascii s = true → int_of_str s = long_from_string s.
Proof.
  intros (cps & Hd & Hall)%utf8_decode_ascii. unfold int_of_str.
  by rewrite Hd, Hall.
Qed.

Ltac eval_digit :=
  match goal with
  | |- context [digit_of ?c] =>
      let v := eval vm_compute in (digit_of c) in change (digit_of c) with v
  end.

Lemma scan_digits_acc d : ∀ acc : positive,
  scan_digits (NilEmpty.string_of_uint d) (Z.pos acc) =
  (Z.pos (Pos.of_uint_acc d acc), EmptyString).
Proof.
  induction d; intros acc; cbn [NilEmpty.string_of_uint scan_digits Pos.of_uint_acc];
    [done | ..]; eval_digit; cbv iota; rewrite <- IHd; f_equal; lia.
Qed.

Lemma scan_digits_zero d :
  scan_digits (NilEmpty.string_of_uint d) 0 =
  (Z.of_N (Pos.of_uint d), EmptyString).
Proof.
  induction d; cbn [NilEmpty.string_of_uint scan_digits Pos.of_uint];
    [done | ..]; eval_digit; cbv iota; [exact IHd | ..];
    apply (scan_digits_acc d).
Qed.

Lemma string_of_uint_ascii d : all_ascii (NilEmpty.string_of_uint d) = true.
Proof. induction d; cbn [NilEmpty.string_of_uint all_ascii]; [done | ..]; exact IHd. Qed.

(** A numeral that is not empty starts with a digit, so no white space and
    no sign is skipped before it. *)
Lemma long_from_string_uint d :
  d ≠ Decimal.Nil →
  long_from_string (NilEmpty.string_of_uint d) = Some (Z.of_N (Pos.of_uint d)).
Proof.
  intros Hd. pose proof (scan_digits_zero d) as Hscan.
  destruct d; [done | ..]; unfold long_from_string;
    cbn [NilEmpty.string_of_uint skip_spaces] in *;
    change (is_space _) with false; cbv iota; cbn [scan_sign];
    eval_digit; cbv iota; by rewrite Hscan.
Qed.

Lemma long_from_string_uint_neg d :
  d ≠ Decimal.Nil →
  long_from_string (String "-" (NilEmpty.string_of_uint d)) =
  Some (- Z.of_N (Pos.of_uint d)).
Proof.
  intros Hd. pose proof (scan_digits_zero d) as Hscan.
  destruct d; [done | ..]; unfold long_from_string;
    cbn [NilEmpty.string_of_uint skip_spaces] in *;
    change (is_space _) with false; cbv iota; cbn [scan_sign];
    eval_digit; cbv iota; by rewrite Hscan.
Qed.

Lemma to_uint_not_nil n : N.to_uint n ≠ Decimal.Nil.
Proof.
  destruct n as [| p]; [done |]. cbn. intros H.
  pose proof (DecimalPos.Unsigned.of_to p) as Hp. by rewrite H in Hp.
Qed.

Lemma decimal_nil_empty n :
  decimal n = NilEmpty.string_of_uint (N.to_uint (Z.to_N n)).
Proof.
  unfold decimal, NilZero.string_of_uint.
  pose proof (to_uint_not_nil (Z.to_N n)). by destruct (N.to_uint (Z.to_N n)).
Qed.

Lemma decimal_ascii n : all_ascii (decimal n) = true.
Proof. rewrite decimal_nil_empty. apply string_of_uint_ascii. Qed.

(** [int(str(n)) = n] *)
Lemma int_of_str_of_int n : int_of_str (str_of_int n) = Some n.
Proof.
  unfold str_of_int. destruct (n <? 0) eqn:Hn.
  - apply Z.ltb_lt in Hn. rewrite int_of_str_ascii.
    + rewrite decimal_nil_empty.
      change ("-" +:+ ?x) with (String "-" x).
      rewrite long_from_string_uint_neg by apply to_uint_not_nil.
      change (Pos.of_uint ?d) with (N.of_uint d).
      rewrite DecimalN.Unsigned.of_to. f_equal. lia.
    + change ("-" +:+ ?x) with (String "-" x). cbn [all_ascii]. apply decimal_ascii.
  - apply Z.ltb_ge in Hn. rewrite int_of_str_ascii by apply decimal_ascii.
    rewrite decimal_nil_empty.
    rewrite long_from_string_uint by apply to_uint_not_nil.
    change (Pos.of_uint ?d) with (N.of_uint d).
    rewrite DecimalN.Unsigned.of_to. f_equal. lia.
Qed.

(** What [int] accepts beyond ASCII numerals: padding by white space of any
    script and decimal digits of any script; and what it does not. *)
Example int_of_str_examples :
  int_of_str " 42 " = Some 42 ∧
  int_of_str "-0012" = Some (-12) ∧
  int_of_str (String (ascii_of_nat 194) (String (ascii_of_nat 160) "5")) = Some 5 ∧
  int_of_str "١٢٣" = Some 123 ∧
  int_of_str "１２" = Some 12 ∧
  int_of_str "- 5" = None ∧
  int_of_str "1_000" = None ∧
  int_of_str "12.5" = None ∧
  int_of_str "²" = None ∧
  int_of_str EmptyString = None.
Proof. repeat split; vm_compute; reflexivity. Qed.

(** ** The claims about the row cleaner *)

Lemma cleaned_value_str v s : cleaned_value v = VStr s → v = VStr s.
Proof.
  destruct v as [n | s' |]; cbn [cleaned_value]; try done.
  case_bool_decide; [done |]. by destruct (int_of_str s').
Qed.

Lemma dropped_true d :
  dropped d = true ↔ d !! location_key = Some (VStr major_sources).
Proof. unfold dropped. apply bool_decide_eq_true. Qed.

(** C1 — a raw record whose 'Location/Agglomeration' field is 'Major sources
    (outside agglomerations)' makes [clean] return [None] and leave the
    store as it is, and the dataset the loop builds contains neither its
    reference nor a record equal to it. *)
Theorem sentinel_record_dropped reader h data h' i d :
  build reader h = (Ok data, h') →
  reader !! i = Some d →
  d !! location_key = Some (VStr major_sources) →
  (∀ h0 row, h0 !! row = Some d → clean row h0 = (Ok None, h0)) ∧
  ((length h + i)%nat ∉ data) ∧
  h' !! (length h + i)%nat = Some d ∧
  ∀ l, l ∈ data → h' !! l ≠ Some d.
Proof.
  intros Hb Hi Hloc. apply build_ok in Hb as (Hall & -> & ->).
  assert (dropped d = true) as Hd by (by apply dropped_true).
  split; [| split; [| split]].
  - intros h0 row Hrow. by apply (clean_dropped h0 row d).
  - intros (j & d' & Hj & Hd' & Hnd)%elem_of_kept_from.
    assert (j = i) as -> by lia. congruence.
  - rewrite (stored_lookup h reader i d Hi). unfold stored. by rewrite Hd.
  - intros l (j & d' & -> & Hj & Hnd)%elem_of_kept_from.
    rewrite (stored_lookup h reader j d' Hj). unfold stored. rewrite Hnd.
    intros [= Heq].
    assert (cleaned_record d' !! location_key = Some (VStr major_sources)) as Hl
      by (by rewrite Heq).
    unfold cleaned_record in Hl. rewrite lookup_fmap in Hl.
    destruct (d' !! location_key) as [v |] eqn:Hv; [| done].
    cbn in Hl. injection Hl as Hl. apply cleaned_value_str in Hl as ->.
    apply dropped_true in Hv. congruence.
Qed.

Lemma sentinel_record_dropped_witness :
  build example_reader [] = (Ok [0%nat], (build example_reader []).2) ∧
  example_reader !! 1%nat = Some example_row_major ∧
  example_row_major !! location_key = Some (VStr major_sources) ∧
  (∀ h0 row, h0 !! row = Some example_row_major → clean row h0 = (Ok None, h0)) ∧
  (1%nat ∉ [0%nat]) ∧
  (build example_reader []).2 !! 1%nat = Some example_row_major ∧
  ∀ l, l ∈ [0%nat] → (build example_reader []).2 !! l ≠ Some example_row_major.
Proof.
  assert (build example_reader [] = (Ok [0%nat], (build example_reader []).2)) as Hb
    by (apply (bool_decide_eq_true_1 _); vm_compute; reflexivity).
  assert (example_reader !! 1%nat = Some example_row_major) as Hi by reflexivity.
  assert (example_row_major !! location_key = Some (VStr major_sources)) as Hl
    by (vm_compute; reflexivity).
  split; [exact Hb | split; [exact Hi | split; [exact Hl |]]].
  exact (sentinel_record_dropped example_reader [] [0%nat] _ 1 example_row_major Hb Hi Hl).
Defined.

(** C2 — when [clean] hands a record back, every field that held the marker
    'n/a' before the call holds the integer 0 after it. *)
Theorem marker_becomes_zero h row d r h' key :
  h !! row = Some d →
  clean row h = (Ok (Some r), h') →
  d !! key = Some (VStr not_applicable) →
  getitem h' r key = Ok (VInt 0).
Proof.
  intros Hrow Hc Hk. apply (clean_ok_some h row d) in Hc as (-> & _ & ->); [| done].
  by rewrite (getitem_cleaned h row d key (VStr not_applicable)).
Qed.

Lemma marker_becomes_zero_witness :
  [example_row_a] !! 0%nat = Some example_row_a ∧
  clean 0 [example_row_a] = (Ok (Some 0%nat), (clean 0 [example_row_a]).2) ∧
  example_row_a !! industry_key = Some (VStr not_applicable) ∧
  getitem (clean 0 [example_row_a]).2 0 industry_key = Ok (VInt 0).
Proof.
  assert ([example_row_a] !! 0%nat = Some example_row_a) as Hrow by reflexivity.
  assert (clean 0 [example_row_a] = (Ok (Some 0%nat), (clean 0 [example_row_a]).2)) as Hc
    by (apply (bool_decide_eq_true_1 _); vm_compute; reflexivity).
  assert (example_row_a !! industry_key = Some (VStr not_applicable)) as Hk
    by (vm_compute; reflexivity).
  split; [exact Hrow | split; [exact Hc | split; [exact Hk |]]].
  exact (marker_becomes_zero _ _ _ _ _ _ Hrow Hc Hk).
Defined.

(** C3 — when [clean] hands a record back, a field whose string parsed as a
    base-10 integer holds that integer, and a field whose string neither
    parses nor is the marker 'n/a' holds the same string; [key] is any
    column, the location column included.  In particular the decimal
    numeral of an integer, as [str] writes it, is coerced to that
    integer. *)
Theorem numeric_coercion h row d r h' key s :
  h !! row = Some d →
  clean row h = (Ok (Some r), h') →
  d !! key = Some (VStr s) →
  (∀ n, int_of_str s = Some n → getitem h' r key = Ok (VInt n)) ∧
  (int_of_str s = None → s ≠ not_applicable → getitem h' r key = Ok (VStr s)) ∧
  (∀ n, s = str_of_int n → getitem h' r key = Ok (VInt n)).
Proof.
  intros Hrow Hc Hk. apply (clean_ok_some h row d) in Hc as (-> & _ & ->); [| done].
  rewrite (getitem_cleaned h row d key (VStr s)) by done. cbn [cleaned_value].
  assert (∀ n, int_of_str s = Some n →
               Ok (if bool_decide (s = not_applicable) then VInt 0
                   else match int_of_str s with
                        | Some n => VInt n
                        | None => VStr s
                        end) = Ok (VInt n)) as Hint.
  { intros n Hn. rewrite bool_decide_eq_false_2; [by rewrite Hn |].
    intros ->. by rewrite not_applicable_no_int in Hn. }
  split; [exact Hint | split].
  - intros Hn Hna. by rewrite bool_decide_eq_false_2, Hn.
  - intros n ->. apply Hint, int_of_str_of_int.
Qed.

Lemma numeric_coercion_witness :
  [example_row_a] !! 0%nat = Some example_row_a ∧
  clean 0 [example_row_a] = (Ok (Some 0%nat), (clean 0 [example_row_a]).2) ∧
  example_row_a !! population_key = Some (VStr "100") ∧
  int_of_str "100" = Some 100 ∧
  getitem (clean 0 [example_row_a]).2 0 population_key = Ok (VInt 100).
Proof.
  assert ([example_row_a] !! 0%nat = Some example_row_a) as Hrow by reflexivity.
  assert (clean 0 [example_row_a] = (Ok (Some 0%nat), (clean 0 [example_row_a]).2)) as Hc
    by (apply (bool_decide_eq_true_1 _); vm_compute; reflexivity).
  assert (example_row_a !! population_key = Some (VStr "100")) as Hk
    by (vm_compute; reflexivity).
  assert (int_of_str "100" = Some 100) as Hn by (vm_compute; reflexivity).
  split; [exact Hrow | split; [exact Hc | split; [exact Hk | split; [exact Hn |]]]].
  exact (proj1 (numeric_coercion _ _ _ _ _ _ _ Hrow Hc Hk) 100 Hn).
Defined.

(** The three cases on one record: a numeral with padding is coerced, also
    in the location column and also when the padding and the digits are not
    ASCII; a name is kept. *)
Example numeric_coercion_examples :
  let padded := String (ascii_of_nat 194) (String (ascii_of_nat 160) "5") in
  let d : pydict := {[ location_key := VStr " 42 ";
                       population_key := VStr "١٢٣";
                       industry_key := VStr padded;
                       road_key := VStr "Leeds" ]} in
  (clean 0 [d]).1 = Ok (Some 0%nat) ∧
  getitem (clean 0 [d]).2 0 location_key = Ok (VInt 42) ∧
  getitem (clean 0 [d]).2 0 population_key = Ok (VInt 123) ∧
  getitem (clean 0 [d]).2 0 industry_key = Ok (VInt 5) ∧
  getitem (clean 0 [d]).2 0 road_key = Ok (VStr "Leeds").
Proof. repeat split; vm_compute; reflexivity. Qed.

(** C7 — a record with a location other than the sentinel whose values are
    all clean (integers, or strings that are neither 'n/a' nor parseable) is
    returned by [clean] as it is: same reference, and a store identical to
    the one before the call. *)
Theorem clean_idempotent h row d :
  h !! row = Some d →
  has_location d = true →
  dropped d = false →
  all_values is_clean d = true →
  clean row h = (Ok (Some row), h).
Proof.
  intros Hrow Hl Hd Hcl.
  rewrite (clean_kept h row d); [| done | | done].
  - by rewrite cleaned_record_clean, list_insert_id.
  - unfold cleanable. rewrite Hl, Hd. cbn [andb orb].
    eapply all_values_impl; [apply is_clean_not_none | done].
Qed.

Lemma clean_idempotent_witness :
  [example_row_a_clean] !! 0%nat = Some example_row_a_clean ∧
  has_location example_row_a_clean = true ∧
  dropped example_row_a_clean = false ∧
  all_values is_clean example_row_a_clean = true ∧
  clean 0 [example_row_a_clean] = (Ok (Some 0%nat), [example_row_a_clean]).
Proof.
  assert ([example_row_a_clean] !! 0%nat = Some example_row_a_clean) as Hrow
    by reflexivity.
  assert (has_location example_row_a_clean = true) as Hl by (vm_compute; reflexivity).
  assert (dropped example_row_a_clean = false) as Hd by (vm_compute; reflexivity).
  assert (all_values is_clean example_row_a_clean = true) as Hcl
    by (vm_compute; reflexivity).
  split; [exact Hrow | split; [exact Hl | split; [exact Hd | split; [exact Hcl |]]]].
  exact (clean_idempotent _ _ _ Hrow Hl Hd Hcl).
Defined.

(** C9, as stated, fails: [clean] writes into the mapping it is given.  On
    the example row the field that held 'n/a' holds 0 after the call, so the
    caller's store is not the one before the call. *)
Lemma clean_mutates_caller_row :
  getitem [example_row_a] 0 industry_key = Ok (VStr "n/a") ∧
  getitem (clean 0 [example_row_a]).2 0 industry_key = Ok (VInt 0) ∧
  (clean 0 [example_row_a]).2 ≠ [example_row_a].
Proof.
  assert (getitem (clean 0 [example_row_a]).2 0 industry_key = Ok (VInt 0)) as H
    by (vm_compute; reflexivity).
  split; [vm_compute; reflexivity | split; [exact H |]].
  intros Heq. apply (f_equal (λ h, getitem h 0 industry_key)) in Heq.
  vm_compute in Heq. discriminate.
Qed.

(** C9, amended — [clean] returns the drop signal or the very reference it
    was given, and it cleans that mapping in place: after the call a
    non-dropped record holds its cleaned values, a dropped record is
    unchanged; no other object of the store changes, and none is added or
    removed. *)
Theorem clean_in_place h row d :
  h !! row = Some d →
  cleanable d = true →
  clean row h =
    (if dropped d then Ok None else Ok (Some row),
     if dropped d then h else <[row := cleaned_record d]> h) ∧
  (∀ l, l ≠ row → (clean row h).2 !! l = h !! l) ∧
  length (clean row h).2 = length h.
Proof.
  intros Hrow Hc. split; [| split].
  - destruct (dropped d) eqn:Hd.
    + by apply (clean_dropped h row d).
    + by apply clean_kept.
  - intros l. apply clean_frame.
  - apply clean_length.
Qed.

Lemma clean_in_place_witness :
  [example_row_a] !! 0%nat = Some example_row_a ∧
  cleanable example_row_a = true ∧
  clean 0 [example_row_a] =
    (if dropped example_row_a then Ok None else Ok (Some 0%nat),
     if dropped example_row_a then [example_row_a]
     else <[0%nat := cleaned_record example_row_a]> [example_row_a]) ∧
  (∀ l, l ≠ 0%nat → (clean 0 [example_row_a]).2 !! l = [example_row_a] !! l) ∧
  length (clean 0 [example_row_a]).2 = length [example_row_a].
Proof.
  assert ([example_row_a] !! 0%nat = Some example_row_a) as Hrow by reflexivity.
  assert (cleanable example_row_a = true) as Hc by (vm_compute; reflexivity).
  split; [exact Hrow | split; [exact Hc |]].
  exact (clean_in_place _ _ _ Hrow Hc).
Defined.

(** C10 — on a record without the key 'Location/Agglomeration', [clean]
    raises [KeyError] at the lookup and returns neither a record nor the
    drop signal; on a record with the key the lookup yields its value and
    [clean] never raises [KeyError]. *)
Theorem location_key_required h row d :
  h !! row = Some d →
  (d !! location_key = None → clean row h = (Raise KeyError, h)) ∧
  (is_Some (d !! location_key) →
   (∃ v, getitem h row location_key = Ok v) ∧
   ∀ h', clean row h ≠ (Raise KeyError, h')).
Proof.
  intros Hrow. split.
  - by apply clean_no_location.
  - intros Hl. split.
    + destruct Hl as [v Hv]. exists v. unfold getitem. by rewrite Hrow, Hv.
    + intros h' Hc. by apply (clean_raises h row d) in Hc.
Qed.

Lemma location_key_required_witness :
  [example_row_a] !! 0%nat = Some example_row_a ∧
  (example_row_a !! location_key = None →
   clean 0 [example_row_a] = (Raise KeyError, [example_row_a])) ∧
  (is_Some (example_row_a !! location_key) →
   (∃ v, getitem [example_row_a] 0 location_key = Ok v) ∧
   ∀ h', clean 0 [example_row_a] ≠ (Raise KeyError, h')).
Proof.
  assert ([example_row_a] !! 0%nat = Some example_row_a) as Hrow by reflexivity.
  split; [exact Hrow |].
  exact (location_key_required _ _ _ Hrow).
Defined.

(** A record without the key: the call raises and nothing is stored. *)
Example clean_without_location :
  clean 0 [ {[ population_key := VStr "7" ]} ] =
  (Raise KeyError, [ {[ population_key := VStr "7" ]} ]).
Proof. vm_compute. reflexivity. Qed.

(** A short line of the CSV file gives a [None] field, and [int(None)] is a
    [TypeError] that [clean] does not catch. *)
Example clean_none_field :
  (clean 0 [ {[ location_key := VStr "A"; population_key := VNone ]} ]).1 =
  Raise TypeError.
Proof. vm_compute. reflexivity. Qed.

(** ** The claims about the dataset builder *)

Lemma forallb_app_true {A} (p : A → bool) l1 l2 :
  forallb p (l1 ++ l2) = true → forallb p l1 = true ∧ forallb p l2 = true.
Proof. rewrite forallb_app. apply andb_true_iff. Qed.

(** C6 — on cleanable raw records the loop returns a dataset whose records
    are, in input order, exactly what [clean] returns for each record it
    does not drop (the cleaned forms of the non-dropped records); and it is
    one forward pass: the dataset after a prefix of the input is a prefix of
    the final dataset, the rest of the input only appends to it. *)
Theorem build_cleans_in_order reader h :
  forallb cleanable reader = true →
  ∃ data h',
    build reader h = (Ok data, h') ∧
    (λ l, h' !! l) <$> data = Some <$> omap clean_alone reader ∧
    omap clean_alone reader =
      cleaned_record <$> filter (λ d, dropped d = false) reader ∧
    ∀ r1 r2, reader = r1 ++ r2 →
      ∃ data1 h1, build r1 h = (Ok data1, h1) ∧
                  build_from r2 data1 h1 = (Ok data, h') ∧
                  data1 `prefix_of` data.
Proof.
  intros Hall. exists (kept_from (length h) reader), (h ++ (stored <$> reader)).
  split; [| split; [| split]].
  - unfold build. by rewrite build_from_total.
  - by rewrite kept_from_records, omap_clean_alone.
  - by apply omap_clean_alone.
  - intros r1 r2 ->. apply forallb_app_true in Hall as [H1 H2].
    exists (kept_from (length h) r1), (h ++ (stored <$> r1)).
    split; [| split].
    + unfold build. by rewrite build_from_total.
    + rewrite build_from_total by done.
      rewrite kept_from_app, fmap_app, length_app, length_fmap.
      by rewrite <- app_assoc.
    + rewrite kept_from_app. by apply prefix_app_r.
Qed.

Lemma build_cleans_in_order_witness :
  forallb cleanable example_reader = true ∧
  ∃ data h',
    build example_reader [] = (Ok data, h') ∧
    (λ l, h' !! l) <$> data = Some <$> omap clean_alone example_reader ∧
    omap clean_alone example_reader =
      cleaned_record <$> filter (λ d, dropped d = false) example_reader ∧
    ∀ r1 r2, example_reader = r1 ++ r2 →
      ∃ data1 h1, build r1 [] = (Ok data1, h1) ∧
                  build_from r2 data1 h1 = (Ok data, h') ∧
                  data1 `prefix_of` data.
Proof.
  assert (forallb cleanable example_reader = true) as Hall by (vm_compute; reflexivity).
  split; [exact Hall |].
  exact (build_cleans_in_order example_reader [] Hall).
Defined.

(** The end-to-end example of the specification: one record is kept, with
    the marker and the numbers coerced. *)
Example build_example :
  build example_reader [] = (Ok [0%nat], [example_row_a_clean; example_row_major]).
Proof. apply (bool_decide_eq_true_1 _). vm_compute. reflexivity. Qed.

(** ** The claims about the summary *)

(** C4 — on a dataset that is not empty and whose populations are integers,
    [most_populated] is the earliest record with the largest population
    (every record before it has a strictly smaller population, none after it
    a larger one) and [least_populated] the earliest record with the
    smallest population; so of several records that share the extremal
    population the first in dataset order is selected. *)
Theorem extremal_selection_stable h data :
  data ≠ [] →
  int_populations h data = true →
  ∃ rmax rmin,
    most_populated h data = Ok rmax ∧ first_maximal h data rmax ∧
    least_populated h data = Ok rmin ∧ first_minimal h data rmin.
Proof.
  intros Hne Hint.
  destruct (most_populated_first h data Hne Hint) as (rmax & Hmax & Hfmax).
  destruct (least_populated_first h data Hne Hint) as (rmin & Hmin & Hfmin).
  by exists rmax, rmin.
Qed.

Lemma extremal_selection_stable_witness :
  [0; 1; 2; 3]%nat ≠ [] ∧
  int_populations example_ties [0; 1; 2; 3]%nat = true ∧
  ∃ rmax rmin,
    most_populated example_ties [0; 1; 2; 3]%nat = Ok rmax ∧
    first_maximal example_ties [0; 1; 2; 3]%nat rmax ∧
    least_populated example_ties [0; 1; 2; 3]%nat = Ok rmin ∧
    first_minimal example_ties [0; 1; 2; 3]%nat rmin.
Proof.
  assert ([0; 1; 2; 3]%nat ≠ []) as Hne by discriminate.
  assert (int_populations example_ties [0; 1; 2; 3]%nat = true) as Hint
    by (vm_compute; reflexivity).
  split; [exact Hne | split; [exact Hint |]].
  exact (extremal_selection_stable example_ties [0; 1; 2; 3]%nat Hne Hint).
Defined.

(** Populations 5, 9, 9, 5: the first 9 and the first 5 are selected. *)
Example extremal_selection_ties :
  most_populated example_ties [0; 1; 2; 3]%nat = Ok 1%nat ∧
  least_populated example_ties [0; 1; 2; 3]%nat = Ok 0%nat.
Proof. split; vm_compute; reflexivity. Qed.

(** ** The accuracy of the percentage

    The division of two integers and the multiplication by 100 each round
    once to the nearest binary64 number, and the formatting rounds the
    product to the nearest hundredth.  The shift-and-round of the float
    operations is followed with the integer invariant [shr_tracks]; the
    three errors are put together over the real numbers. *)


Lemma half_quotient N D :
  0 <= N → 0 < D →
  N / (2 * D) = N / D / 2 ∧ N mod (2 * D) = N mod D + D * ((N / D) mod 2).
Proof.
  intros HN HD. split.
  - rewrite Z.div_div by lia. f_equal. lia.
  - rewrite (Z.mul_comm 2 D). apply Z.rem_mul_r; lia.
Qed.

Lemma half_xI p : Z.pos p~1 / 2 = Z.pos p ∧ Z.pos p~1 mod 2 = 1.
Proof.
  split; symmetry.
  - apply (Z.div_unique _ _ _ 1); [lia | rewrite Pos2Z.inj_xI; lia].
  - apply (Z.mod_unique _ _ (Z.pos p)); [lia | rewrite Pos2Z.inj_xI; lia].
Qed.

Lemma half_xO p : Z.pos p~0 / 2 = Z.pos p ∧ Z.pos p~0 mod 2 = 0.
Proof.
  split; symmetry.
  - apply (Z.div_unique _ _ _ 0); [lia | rewrite Pos2Z.inj_xO; lia].
  - apply (Z.mod_unique _ _ (Z.pos p)); [lia | rewrite Pos2Z.inj_xO; lia].
Qed.

Ltac case_bools :=
  repeat match goal with
         | |- context [?a <=? ?b] => destruct (Z.leb_spec a b)
         | |- context [?a =? ?b] => destruct (Z.eqb_spec a b)
         end.

Lemma shr_1_tracks N D mrs :
  0 <= N → 0 < D → shr_tracks N D mrs → shr_tracks N (2 * D) (shr_1 mrs).
Proof.
  intros HN HD. destruct mrs as [m r s]. unfold shr_tracks. cbn [shr_m shr_r shr_s].
  intros (-> & -> & ->).
  destruct (half_quotient N D HN HD) as [Hq Hr]. rewrite Hq, Hr.
  pose proof (Z.mod_pos_bound N D HD) as Hrho.
  pose proof (Z.div_pos N D HN HD) as Hquo.
  set (rho := N mod D) in *. set (q := N / D) in *. clearbody rho q. clear Hq Hr.
  destruct q as [| [p | p |] | p]; [| | | | lia]; cbn [shr_1 shr_m shr_r shr_s].
  - change (0 / 2) with 0. change (0 mod 2) with 0. rewrite Z.mul_0_r, Z.add_0_r.
    repeat split; case_bools; cbn; try reflexivity; lia.
  - destruct (half_xI p) as [-> ->]. rewrite Z.mul_1_r.
    repeat split; case_bools; cbn; try reflexivity; lia.
  - destruct (half_xO p) as [-> ->]. rewrite Z.mul_0_r, Z.add_0_r.
    repeat split; case_bools; cbn; try reflexivity; lia.
  - change (1 / 2) with 0. change (1 mod 2) with 1. rewrite Z.mul_1_r.
    repeat split; case_bools; cbn; try reflexivity; lia.
Qed.

Lemma pow2_xO p : 2 ^ Z.pos p~0 = 2 ^ Z.pos p * 2 ^ Z.pos p.
Proof.
  replace (Z.pos p~0) with (Z.pos p + Z.pos p) by lia. apply Z.pow_add_r; lia.
Qed.

Lemma pow2_xI p : 2 ^ Z.pos p~1 = 2 * (2 ^ Z.pos p * 2 ^ Z.pos p).
Proof.
  replace (Z.pos p~1) with (1 + (Z.pos p + Z.pos p)) by lia.
  rewrite Z.pow_add_r by lia. f_equal. apply Z.pow_add_r; lia.
Qed.

Lemma iter_shr_1_tracks p : ∀ N D mrs,
  0 <= N → 0 < D → shr_tracks N D mrs →
  shr_tracks N (D * 2 ^ Z.pos p) (SpecFloat.iter_pos shr_1 p mrs).
Proof.
  induction p as [p IH | p IH |]; intros N D mrs HN HD Ht; cbn [SpecFloat.iter_pos];
    [pose proof (Z.pow_pos_nonneg 2 (Z.pos p) ltac:(lia) ltac:(lia)) as Hpow
    |pose proof (Z.pow_pos_nonneg 2 (Z.pos p) ltac:(lia) ltac:(lia)) as Hpow
    |].
  - replace (D * 2 ^ Z.pos p~1) with (2 * D * 2 ^ Z.pos p * 2 ^ Z.pos p)
      by (rewrite pow2_xI; ring).
    apply IH; [done | nia |]. apply IH; [done | lia |]. by apply shr_1_tracks.
  - replace (D * 2 ^ Z.pos p~0) with (D * 2 ^ Z.pos p * 2 ^ Z.pos p)
      by (rewrite pow2_xO; ring).
    apply IH; [done | nia |]. by apply IH.
  - change (2 ^ 1) with 2. rewrite Z.mul_comm. by apply shr_1_tracks.
Qed.

(** Shifting right by [n] places divides by [2^n] and keeps track of what
    is lost. *)
Lemma shr_tracks_shift N D mrs e n :
  0 <= N → 0 < D → 0 <= n → shr_tracks N D mrs →
  ∃ mrs', shr mrs e n = (mrs', e + n) ∧ shr_tracks N (D * 2 ^ n) mrs'.
Proof.
  intros HN HD Hn Ht. destruct n as [| p | p]; [| | lia].
  - exists mrs. cbn [shr]. rewrite Z.add_0_r, Z.mul_1_r. done.
  - exists (SpecFloat.iter_pos shr_1 p mrs). split; [done |]. by apply iter_shr_1_tracks.
Qed.

Lemma digits2_size p : digits2_pos p = Pos.size p.
Proof. induction p; cbn; congruence. Qed.

Lemma Zdigits2_bounds m :
  0 < m → 0 < Zdigits2 m ∧ 2 ^ (Zdigits2 m - 1) <= m < 2 ^ Zdigits2 m.
Proof.
  destruct m as [| p | p]; try lia. intros _. cbn [Zdigits2].
  rewrite digits2_size. split; [lia |].
  pose proof (Pos.size_gt p) as Hgt. pose proof (Pos.size_le p) as Hle.
  apply Pos2Z.pos_lt_pos in Hgt. apply Pos2Z.pos_le_pos in Hle.
  rewrite Pos2Z.inj_pow in Hgt, Hle. split; [| lia].
  replace (2 ^ Z.pos (Pos.size p)) with (2 ^ (Z.pos (Pos.size p) - 1) * 2) in Hle.
  - lia.
  - rewrite Z.mul_comm, <- (Z.pow_succ_r 2 (Z.pos (Pos.size p) - 1)) by lia.
    f_equal. lia.
Qed.

Lemma Zdigits2_unique m k :
  2 ^ (k - 1) <= m < 2 ^ k → 0 < k → Zdigits2 m = k.
Proof.
  intros [Hlo Hhi] Hk.
  assert (0 < m) as Hm by (pose proof (Z.pow_pos_nonneg 2 (k - 1)); lia).
  destruct (Zdigits2_bounds m Hm) as (Hd & Hlo' & Hhi').
  set (d := Zdigits2 m) in *. clearbody d.
  destruct (Z.lt_trichotomy d k) as [Hlt | [-> | Hgt]]; [| done |].
  - assert (2 ^ d <= 2 ^ (k - 1)) by (apply Z.pow_le_mono_r; lia). lia.
  - assert (2 ^ k <= 2 ^ (d - 1)) by (apply Z.pow_le_mono_r; lia). lia.
Qed.

(** Rounding to nearest, ties to even, from the tracked position. *)
Lemma round_nearest_even_tracks N D mrs :
  0 <= N → 0 < D → shr_tracks N D mrs →
  N / D <= round_nearest_even (shr_m mrs) (loc_of_shr_record mrs) <= N / D + 1 ∧
  2 * Z.abs (round_nearest_even (shr_m mrs) (loc_of_shr_record mrs) * D - N) <= D.
Proof.
  intros HN HD. destruct mrs as [m r s]. unfold shr_tracks.
  cbn [shr_m shr_r shr_s]. intros (-> & -> & ->).
  pose proof (Z.mod_pos_bound N D HD) as Hrho.
  pose proof (Z.div_mod N D ltac:(lia)) as Hdm.
  set (rho := N mod D) in *. set (q := N / D) in *. clearbody rho q.
  destruct (Z.leb_spec D (2 * rho)), (Z.eqb_spec rho 0), (Z.eqb_spec (2 * rho) D);
    cbn [negb andb loc_of_shr_record round_nearest_even];
    try destruct (Z.even q); lia.
Qed.

Lemma shr_record_of_loc_m m l : shr_m (shr_record_of_loc m l) = m.
Proof. by destruct l as [| []]. Qed.

Lemma fexp_normal e : -1021 <= e → fexp prec emax e = e - 53.
Proof. intros He. unfold fexp, emin, prec, emax. lia. Qed.

(** [binary_round_aux] on a mantissa of at least 53 bits, in the range of
    the normal numbers and below the overflow threshold: the result is a
    normal float whose distance to the exact value [N / D * 2^ex] is at
    most half a unit in its last place. *)
Lemma binary_round_aux_nearest sx N D ex lx :
  0 < D →
  2 ^ 52 <= N / D →
  shr_tracks N D (shr_record_of_loc (N / D) lx) →
  -1021 <= Zdigits2 (N / D) + ex →
  Zdigits2 (N / D) + ex <= 1023 →
  ∃ m k,
    binary_round_aux prec emax sx (N / D) ex lx = S754_finite sx m (ex + k) ∧
    0 <= k ∧ Zdigits2 (N / D) - 53 <= k <= Zdigits2 (N / D) - 52 ∧
    2 ^ 52 <= Z.pos m < 2 ^ 53 ∧
    2 * Z.abs (Z.pos m * 2 ^ k * D - N) <= D * 2 ^ k.
Proof.
  intros HD Hmx Ht Hlo Hhi.
  assert (0 <= N) as HN.
  { destruct (Z.lt_ge_cases N 0) as [Hneg | ?]; [| done].
    pose proof (Z.div_lt_upper_bound N D 0 HD ltac:(lia)). lia. }
  assert (0 < N / D) as Hpos by lia.
  destruct (Zdigits2_bounds (N / D) Hpos) as (Hd & Hdlo & Hdhi).
  set (mx := N / D) in *. set (d := Zdigits2 mx) in *.
  assert (53 <= d) as Hd53.
  { destruct (Z.lt_ge_cases d 53) as [Hlt | ?]; [| done].
    assert (2 ^ d <= 2 ^ 52) by (apply Z.pow_le_mono_r; lia). lia. }
  unfold binary_round_aux, shr_fexp. fold d.
  rewrite fexp_normal by lia.
  destruct (shr_tracks_shift N D (shr_record_of_loc mx lx) ex (d + ex - 53 - ex))
    as (mrs1 & -> & Ht1); [done | done | lia | done |].
  replace (ex + (d + ex - 53 - ex)) with (d + ex - 53) by lia.
  replace (d + ex - 53 - ex) with (d - 53) in Ht1 by lia.
  assert (0 < 2 ^ (d - 53)) as Hpn by (apply Z.pow_pos_nonneg; lia).
  destruct (round_nearest_even_tracks N (D * 2 ^ (d - 53)) mrs1 HN ltac:(nia) Ht1)
    as [HR Herr].
  set (R := round_nearest_even (shr_m mrs1) (loc_of_shr_record mrs1)) in *.
  assert (N / (D * 2 ^ (d - 53)) = mx / 2 ^ (d - 53)) as HM
    by (unfold mx; rewrite Z.div_div by lia; done).
  assert (2 ^ 52 <= mx / 2 ^ (d - 53) < 2 ^ 53) as [HMlo HMhi].
  { split.
    - apply Z.div_le_lower_bound; [done |].
      rewrite Z.mul_comm, <- Z.pow_add_r by lia.
      replace (52 + (d - 53)) with (d - 1) by lia. done.
    - apply Z.div_lt_upper_bound; [done |].
      rewrite <- Z.pow_add_r by lia.
      replace (d - 53 + 53) with d by lia. done. }
  rewrite HM in HR.
  destruct (Z.eq_dec R (2 ^ 53)) as [HR53 | HRne].
  - (* the mantissa was rounded up to the next power of two *)
    assert (Zdigits2 R = 54) as -> by (apply Zdigits2_unique; [rewrite HR53 |]; lia).
    rewrite fexp_normal by lia.
    replace (54 + (d + ex - 53) - 53 - (d + ex - 53)) with 1 by lia.
    cbn [shr SpecFloat.iter_pos shr_record_of_loc]. rewrite HR53.
    cbn [shr_1 Z.pow Z.pow_pos Pos.iter Z.mul Pos.mul shr_m].
    exists (Z.to_pos (2 ^ 52)), (d - 53 + 1).
    assert ((d + ex - 53 + 1 <=? emax - prec) = true) as ->
      by (apply Z.leb_le; unfold emax, prec; lia).
    split; [f_equal; lia |]. split; [lia |]. split; [lia |]. split; [done |].
    rewrite HR53 in Herr. rewrite Z.pow_add_r by lia. change (2 ^ 1) with 2.
    change (Z.pos (Z.to_pos (2 ^ 52))) with (2 ^ 52).
    replace (2 ^ 52 * (2 ^ (d - 53) * 2) * D - N)
      with (2 ^ 53 * (D * 2 ^ (d - 53)) - N) by (change (2 ^ 53) with (2 ^ 52 * 2); ring).
    nia.
  - assert (2 ^ 52 <= R < 2 ^ 53) as HRb by lia.
    assert (Zdigits2 R = 53) as -> by (apply Zdigits2_unique; lia).
    rewrite fexp_normal by lia.
    replace (53 + (d + ex - 53) - 53 - (d + ex - 53)) with 0 by lia.
    cbn [shr shr_record_of_loc shr_m].
    destruct R as [| m | m] eqn:ER; [lia | | lia].
    exists m, (d - 53).
    assert ((d + ex - 53 <=? emax - prec) = true) as ->
      by (apply Z.leb_le; unfold emax, prec; lia).
    split; [f_equal; lia |]. split; [lia |]. split; [lia |]. split; [done |].
    replace (Z.pos m * 2 ^ (d - 53) * D) with (Z.pos m * (D * 2 ^ (d - 53))) by ring.
    done.
Qed.

(** The location that the division computes from the remainder. *)
Lemma new_location_tracks N D :
  0 <= N → 0 < D →
  shr_tracks N D (shr_record_of_loc (N / D) (new_location D (N mod D))).
Proof.
  intros HN HD. unfold shr_tracks. rewrite shr_record_of_loc_m. split; [done |].
  pose proof (Z.mod_pos_bound N D HD) as Hrho.
  set (rho := N mod D) in *. clearbody rho.
  unfold new_location, new_location_even, new_location_odd.
  destruct (Z.even D) eqn:Hev.
  - destruct (Z.eqb_spec rho 0) as [-> | Hne].
    + cbn. split; [symmetry; apply Z.leb_gt; lia | done].
    + destruct (Z.compare_spec (2 * rho) D); cbn [shr_record_of_loc shr_r shr_s negb andb];
        split; case_bools; cbn; try reflexivity; lia.
  - assert (2 * rho ≠ D) as Hodd.
    { intros <-. rewrite Z.even_mul in Hev. done. }
    destruct (Z.eqb_spec rho 0) as [-> | Hne].
    + cbn. split; [symmetry; apply Z.leb_gt; lia | done].
    + destruct (Z.compare_spec (2 * rho + 1) D); cbn [shr_record_of_loc shr_r shr_s negb andb];
        split; case_bools; cbn; try reflexivity; lia.
Qed.

Lemma pow2_lt_inv a b : 2 ^ a < 2 ^ b → 0 <= b → a < b.
Proof.
  intros H Hb. destruct (Z.lt_ge_cases a b) as [? | Hge]; [done |].
  assert (2 ^ b <= 2 ^ a) by (apply Z.pow_le_mono_r; lia). lia.
Qed.

Lemma Zdigits2_le_bound m n : 0 < m → m < 2 ^ n → 0 <= n → Zdigits2 m <= n.
Proof.
  intros Hm Hlt Hn. destruct (Zdigits2_bounds m Hm) as (Hd & Hlo & _).
  assert (Zdigits2 m - 1 < n); [| lia].
  apply pow2_lt_inv; lia.
Qed.

Lemma Zdigits2_ge_bound m n : 2 ^ n <= m → 0 <= n → n + 1 <= Zdigits2 m.
Proof.
  intros Hle Hn.
  assert (0 < m) as Hm by (pose proof (Z.pow_pos_nonneg 2 n); lia).
  destruct (Zdigits2_bounds m Hm) as (Hd & _ & Hhi).
  assert (n < Zdigits2 m); [| lia].
  apply pow2_lt_inv; lia.
Qed.

Lemma div_eucl_div_mod a b : Z.div_eucl a b = (a / b, a mod b).
Proof. unfold Z.div, Z.modulo. by destruct (Z.div_eucl a b). Qed.

(** [a / b] for positive integers below [2^1000]: the quotient is a normal
    float [m * 2^(k - s)] within half a unit in the last place of the
    exact quotient. *)
Lemma int_truediv_nearest C P :
  0 < C → 0 < P → C < 2 ^ 1000 → P < 2 ^ 1000 →
  ∃ m s k,
    int_truediv C P = Ok (S754_finite false m (k - s)) ∧
    0 <= s ∧ 0 <= k ∧ -1060 <= k - s <= 960 ∧
    2 ^ 52 <= Z.pos m < 2 ^ 53 ∧
    2 * Z.abs (Z.pos m * 2 ^ k * P - C * 2 ^ s) <= P * 2 ^ k.
Proof.
  intros HC HP HCb HPb.
  destruct (Zdigits2_bounds C HC) as (Hd1 & Hd1lo & Hd1hi).
  destruct (Zdigits2_bounds P HP) as (Hd2 & Hd2lo & Hd2hi).
  pose proof (Zdigits2_le_bound C 1000 HC HCb ltac:(lia)) as Hd1b.
  pose proof (Zdigits2_le_bound P 1000 HP HPb ltac:(lia)) as Hd2b.
  clear HCb HPb.
  unfold int_truediv. rewrite (proj2 (Z.eqb_neq P 0)) by lia.
  destruct C as [| c | c]; [lia | | lia]. destruct P as [| p | p]; [lia | | lia].
  change (Z.to_pos (Z.abs (Z.pos c))) with c.
  change (Z.to_pos (Z.abs (Z.pos p))) with p.
  change (Z.pos c <? 0) with false. change (Z.pos p <? 0) with false.
  unfold SFdiv, SFdiv_core_binary. cbn [xorb].
  set (d1 := Zdigits2 (Z.pos c)) in *. set (d2 := Zdigits2 (Z.pos p)) in *.
  rewrite !Z.add_0_r, Z.sub_0_r. rewrite fexp_normal by lia.
  set (e' := Z.min (d1 - d2 - 53) 0). set (s := 0 - e').
  assert (0 <= s) as Hs by (unfold s, e'; lia).
  assert (53 - d1 + d2 <= s) as Hs53 by (unfold s, e'; lia).
  assert (s <= Z.max (53 - d1 + d2) 0) as Hsmax by (unfold s, e'; lia).
  assert (match s with
          | 0 => Z.pos c
          | Z.pos _ => Z.shiftl (Z.pos c) s
          | Z.neg _ => 0
          end = Z.pos c * 2 ^ s) as ->.
  { destruct s as [| sp | sp] eqn:Es; [cbn; lia | | lia].
    by rewrite Z.shiftl_mul_pow2. }
  rewrite div_eucl_div_mod.
  set (N := Z.pos c * 2 ^ s).
  assert (0 < 2 ^ s) as Hps by (apply Z.pow_pos_nonneg; lia).
  assert (0 <= N) as HN by (unfold N; lia).
  (* the size of the integer quotient *)
  assert (2 ^ (d1 - 1 + s - d2) <= N / Z.pos p) as Hqlo.
  { apply Z.div_le_lower_bound; [lia |].
    assert (2 ^ (d1 - 1 + s - d2) * 2 ^ d2 = 2 ^ (d1 - 1) * 2 ^ s) as Heq.
    { rewrite <- !Z.pow_add_r by lia. f_equal. lia. }
    assert (0 < 2 ^ (d1 - 1 + s - d2)) by (apply Z.pow_pos_nonneg; lia).
    unfold N. nia. }
  assert (N / Z.pos p < 2 ^ (d1 + s - d2 + 1)) as Hqhi.
  { apply Z.div_lt_upper_bound; [lia |].
    assert (2 ^ (d2 - 1) * 2 ^ (d1 + s - d2 + 1) = 2 ^ d1 * 2 ^ s) as Heq.
    { rewrite <- !Z.pow_add_r by lia. f_equal. lia. }
    assert (0 < 2 ^ (d1 + s - d2 + 1)) by (apply Z.pow_pos_nonneg; lia).
    unfold N. nia. }
  assert (2 ^ 52 <= N / Z.pos p) as Hq52.
  { assert (2 ^ 52 <= 2 ^ (d1 - 1 + s - d2)) by (apply Z.pow_le_mono_r; lia). lia. }
  assert (0 < N / Z.pos p) as Hq0.
  { eapply Z.lt_le_trans; [| exact Hq52]. done. }
  pose proof (Zdigits2_ge_bound _ _ Hqlo ltac:(lia)) as Hdqlo.
  pose proof (Zdigits2_le_bound _ _ Hq0 Hqhi ltac:(lia)) as Hdqhi.
  destruct (binary_round_aux_nearest false N (Z.pos p) e'
              (new_location (Z.pos p) (N mod Z.pos p)))
    as (m & k & -> & Hk & Hkd & Hm & Herr).
  - lia.
  - done.
  - by apply new_location_tracks.
  - unfold e', s in *. lia.
  - unfold e', s in *. lia.
  - exists m, s, k. cbn [finite_or_overflow].
    split; [f_equal; f_equal; unfold s; lia |].
    split; [done |]. split; [done |]. split; [unfold s, e' in *; lia |].
    split; [done |]. unfold N in Herr. done.
Qed.

Lemma float_of_int_100 :
  float_of_int 100 = Ok (S754_finite false 7036874417766400 (-46)).
Proof. vm_compute. reflexivity. Qed.

(** [x * 100] for a normal float away from the ends of the range: the
    product is a normal float within half a unit in the last place of the
    exact product. *)
Lemma float_mul_100_nearest m e :
  2 ^ 52 <= Z.pos m < 2 ^ 53 → -1060 <= e <= 960 →
  ∃ mx k2,
    float_mul_int (S754_finite false m e) 100 =
      Ok (S754_finite false mx (e - 46 + k2)) ∧
    0 <= k2 ∧ 2 ^ 52 <= Z.pos mx < 2 ^ 53 ∧
    2 * Z.abs (Z.pos mx * 2 ^ k2 - Z.pos m * (100 * 2 ^ 46)) <= 2 ^ k2.
Proof.
  intros Hm He. unfold float_mul_int. rewrite float_of_int_100. cbn [rbind].
  unfold SFmul. cbn [xorb].
  set (N := Z.pos (m * 7036874417766400)).
  assert (N = Z.pos m * (100 * 2 ^ 46)) as HN by (unfold N; lia).
  assert (2 ^ 104 <= N < 2 ^ 106) as [HNlo HNhi] by lia.
  pose proof (Zdigits2_ge_bound N 104 HNlo ltac:(lia)) as Hdlo.
  pose proof (Zdigits2_le_bound N 106 ltac:(lia) HNhi ltac:(lia)) as Hdhi.
  pose proof (binary_round_aux_nearest false N 1 (e + -46) loc_Exact) as Hround.
  rewrite Z.div_1_r in Hround.
  destruct Hround as (mx & k2 & -> & Hk2 & _ & Hmx & Herr).
  - lia.
  - lia.
  - unfold shr_tracks. cbn [shr_record_of_loc shr_m shr_r shr_s].
    rewrite Z.div_1_r, Z.mod_1_r. done.
  - lia.
  - lia.
  - exists mx, k2. split; [do 2 f_equal; lia |]. split; [done |]. split; [done |].
    rewrite <- HN. lia.
Qed.

(** The hundredths that [format_2f] prints are the nearest integer to a
    hundred times the float. *)
Lemma hundredths_nearest m e :
  2 * Z.abs (hundredths m e * 2 ^ Z.max (- e) 0 - 100 * Z.pos m * 2 ^ Z.max e 0)
  <= 2 ^ Z.max (- e) 0.
Proof.
  unfold hundredths. destruct e as [| p | p].
  - change (Z.max (- 0) 0) with 0. change (Z.max 0 0) with 0.
    change (2 ^ 0) with 1. lia.
  - rewrite (Z.max_r (- Z.pos p) 0), (Z.max_l (Z.pos p) 0) by lia.
    change (2 ^ 0) with 1. lia.
  - rewrite (Z.max_l (- Z.neg p) 0), (Z.max_r (Z.neg p) 0) by lia.
    change (- Z.neg p) with (Z.pos p). change (2 ^ 0) with 1.
    pose proof (div_half_even_nearest (100 * Z.pos m) (2 ^ Z.pos p)
                  ltac:(apply Z.pow_pos_nonneg; lia)) as H.
    lia.
Qed.
Lemma scaled_le (x y d : R) : (0 < d → x * d <= y * d → x <= y)%R.
Proof. intros Hd H. by apply (Rmult_le_reg_r d). Qed.

Lemma Rabs_bounds (x y : R) : (Rabs x <= y → - y <= x <= y)%R.
Proof. unfold Rabs. destruct (Rcase_abs x); lra. Qed.

(** The error of the printed percentage, over the reals: [q] is the
    quotient [mq * b / a], [x] the product [mx * c * b / (a * t)] and [hd]
    the printed hundredths. *)
Lemma percent_error_real (C P mq mx hd a b c Dd : R) :
  (0 < C → 0 < P → 0 < a → 0 < b → 0 < c → 0 < Dd →
   4503599627370496 <= mq → 4503599627370496 <= mx →
   2 * Rabs (mq * b * P - C * a) <= P * b →
   2 * Rabs (mx * c - mq * (100 * 70368744177664)) <= c →
   2 * Rabs (hd * Dd - 100 * mx * (Dd * b * c / (a * 70368744177664))) <= Dd →
   4503599627370496 * Rabs (hd * P - 10000 * C)
   <= 2251799813685248 * P + 20000 * C)%R.
Proof.
  intros HC HP Ha Hb Hc HDd Hmq Hmx H1 H2 H3.
  set (t := 70368744177664%R) in *.
  assert (0 < t)%R as Ht by (unfold t; lra).
  set (u := (/ 9007199254740992)%R).
  set (qv := (mq * b / a)%R). set (xv := (mx * b * c / (a * t))%R).
  set (T := (C / P)%R).
  assert (0 < P * b)%R as HPb by (by apply Rmult_lt_0_compat).
  assert (0 < a * P)%R as HaP by (by apply Rmult_lt_0_compat).
  (* the quotient *)
  assert (- (qv * u) <= qv - T <= qv * u)%R as [A1l A1u].
  { assert (0 <= (mq - 4503599627370496) * (P * b))%R as Hprod
      by (apply Rmult_le_pos; lra).
    assert (- (P * b) <= 2 * (mq * b * P - C * a) <= P * b)%R as [? ?].
    { apply Rabs_bounds. rewrite Rabs_mult, (Rabs_pos_eq 2) by lra. done. }
    split; apply (scaled_le _ _ (a * P) HaP).
    - replace (- (qv * u) * (a * P))%R with (- (mq * b * P * u))%R
        by (unfold qv; field; lra).
      replace ((qv - T) * (a * P))%R with (mq * b * P - C * a)%R
        by (unfold qv, T; field; lra).
      unfold u. lra.
    - replace (qv * u * (a * P))%R with (mq * b * P * u)%R
        by (unfold qv; field; lra).
      replace ((qv - T) * (a * P))%R with (mq * b * P - C * a)%R
        by (unfold qv, T; field; lra).
      unfold u. lra. }
  (* the product *)
  assert (- (xv * u) <= xv - 100 * qv <= xv * u)%R as [A2l A2u].
  { assert (0 <= (mx - 4503599627370496) * c)%R as Hprod
      by (apply Rmult_le_pos; lra).
    assert (- c <= 2 * (mx * c - mq * (100 * t)) <= c)%R as [? ?].
    { apply Rabs_bounds. rewrite Rabs_mult, (Rabs_pos_eq 2) by lra. done. }
    assert (0 < a * t / b)%R as Hatb.
    { apply Rmult_lt_0_compat; [by apply Rmult_lt_0_compat | by apply Rinv_0_lt_compat]. }
    split; apply (scaled_le _ _ (a * t / b) Hatb).
    - replace (- (xv * u) * (a * t / b))%R with (- (mx * c * u))%R
        by (unfold xv; field; lra).
      replace ((xv - 100 * qv) * (a * t / b))%R with (mx * c - mq * (100 * t))%R
        by (unfold xv, qv; field; lra).
      unfold u. lra.
    - replace (xv * u * (a * t / b))%R with (mx * c * u)%R
        by (unfold xv; field; lra).
      replace ((xv - 100 * qv) * (a * t / b))%R with (mx * c - mq * (100 * t))%R
        by (unfold xv, qv; field; lra).
      unfold u. lra. }
  (* the hundredths *)
  assert (- (1 / 2) <= hd - 100 * xv <= 1 / 2)%R as [A3l A3u].
  { assert (- Dd <= 2 * (hd * Dd - 100 * mx * (Dd * b * c / (a * t))) <= Dd)%R as [? ?].
    { apply Rabs_bounds. rewrite Rabs_mult, (Rabs_pos_eq 2) by lra. done. }
    split; apply (scaled_le _ _ Dd HDd).
    - replace ((hd - 100 * xv) * Dd)%R
        with (hd * Dd - 100 * mx * (Dd * b * c / (a * t)))%R
        by (unfold xv; field; lra).
      lra.
    - replace ((hd - 100 * xv) * Dd)%R
        with (hd * Dd - 100 * mx * (Dd * b * c / (a * t)))%R
        by (unfold xv; field; lra).
      lra. }
  assert (0 < T)%R as HT by (apply Rmult_lt_0_compat; [done | by apply Rinv_0_lt_compat]).
  assert (Rabs (hd - 10000 * T) <= 1 / 2 + 10000 * T / 2251799813685248)%R as Hfin.
  { apply Rabs_le. unfold u in *. lra. }
  replace (hd * P - 10000 * C)%R with (P * (hd - 10000 * T))%R
    by (unfold T; field; lra).
  rewrite Rabs_mult, (Rabs_pos_eq P) by lra.
  assert (P * Rabs (hd - 10000 * T) <= P * (1 / 2 + 10000 * T / 2251799813685248))%R
    as Hmul by (apply Rmult_le_compat_l; lra).
  replace (P * (1 / 2 + 10000 * T / 2251799813685248))%R
    with (P / 2 + 10000 * C / 2251799813685248)%R in Hmul
    by (unfold T; field; lra).
  lra.
Qed.

Lemma percent_error_core C P mq mx hd a b c Dn Dd :
  0 < C → 0 < P → 0 < a → 0 < b → 0 < c → 0 < Dd →
  Dn * a * 2 ^ 46 = Dd * b * c →
  2 ^ 52 <= mq → 2 ^ 52 <= mx →
  2 * Z.abs (mq * b * P - C * a) <= P * b →
  2 * Z.abs (mx * c - mq * (100 * 2 ^ 46)) <= c →
  2 * Z.abs (hd * Dd - 100 * mx * Dn) <= Dd →
  2 ^ 52 * Z.abs (hd * P - 10000 * C) <= 2 ^ 51 * P + 20000 * C.
Proof.
  change (2 ^ 46) with 70368744177664. change (2 ^ 52) with 4503599627370496.
  change (2 ^ 51) with 2251799813685248.
  intros HC HP Ha Hb Hc HDd Hrel Hmq Hmx H1 H2 H3.
  apply IZR_lt in HC, HP, Ha, Hb, Hc, HDd. apply IZR_le in Hmq, Hmx, H1, H2, H3.
  apply (f_equal IZR) in Hrel.
  rewrite !mult_IZR in Hrel.
  rewrite !mult_IZR, abs_IZR, minus_IZR, !mult_IZR in H1.
  rewrite !mult_IZR, abs_IZR, minus_IZR, !mult_IZR in H2.
  rewrite !mult_IZR, abs_IZR, minus_IZR, !mult_IZR in H3.
  apply le_IZR. rewrite plus_IZR, !mult_IZR, abs_IZR, minus_IZR, !mult_IZR.
  assert (IZR Dn = IZR Dd * IZR b * IZR c / (IZR a * 70368744177664))%R as HDn.
  { apply (Rmult_eq_reg_r (IZR a * 70368744177664)); [| lra].
    rewrite <- Rmult_assoc, Hrel. field. lra. }
  rewrite HDn in H3.
  by apply (percent_error_real (IZR C) (IZR P) (IZR mq) (IZR mx) (IZR hd)
              (IZR a) (IZR b) (IZR c) (IZR Dd)).
Qed.

Lemma int_of_str_decimal n : 0 <= n → int_of_str (decimal n) = Some n.
Proof.
  intros Hn. pose proof (int_of_str_of_int n) as H. unfold str_of_int in H.
  by rewrite (proj2 (Z.ltb_ge n 0) Hn) in H.
Qed.

Lemma int_of_str_two_digits n : 0 <= n < 100 → int_of_str (two_digits n) = Some n.
Proof.
  intros Hn.
  assert (forallb (λ k, bool_decide (int_of_str (two_digits k) = Some k)) (seqZ 0 100) = true)
    as Hall by (vm_compute; reflexivity).
  rewrite forallb_forall in Hall. apply (bool_decide_eq_true_1 _), Hall.
  apply list_elem_of_In, elem_of_seqZ. lia.
Qed.

Lemma two_decimal_percent_hundredths C P hd :
  0 <= hd →
  2 ^ 52 * Z.abs (hd * P - 10000 * C) <= 2 ^ 51 * P + 20000 * C →
  two_decimal_percent C P
    ((decimal (hd / 100) +:+ "." +:+ two_digits (hd mod 100)) +:+ "%").
Proof.
  intros Hhd Hb. exists hd.
  assert (0 <= hd mod 100 < 100) as Hm by (apply Z.mod_pos_bound; lia).
  split; [done |]. split; [done |].
  split; [apply int_of_str_decimal, Z.div_pos; lia |].
  split; [by apply two_digits_length |].
  split; [by apply int_of_str_two_digits | done].
Qed.

(** The percentage of a non-negative count in a positive population is
    printed, and is accurate. *)
Lemma percent_of_accurate C P :
  0 <= C < 2 ^ 1000 → 0 < P < 2 ^ 1000 →
  ∃ out, percent_of C P = Ok out ∧ two_decimal_percent C P out.
Proof.
  intros [HC0 HCb] [HP0 HPb].
  destruct (Z.eq_dec C 0) as [-> | HCne].
  - exists "0.00%". split.
    + unfold percent_of, int_truediv.
      rewrite (proj2 (Z.eqb_neq P 0)) by lia.
      rewrite (proj2 (Z.ltb_ge P 0)) by lia. reflexivity.
    + apply (two_decimal_percent_hundredths 0 P 0); [done |].
      change (2 ^ 52) with 4503599627370496. change (2 ^ 51) with 2251799813685248.
      lia.
  - destruct (int_truediv_nearest C P) as (m & s & k & Hq & Hs & Hk & He & Hm & H1);
      [lia | done..|].
    destruct (float_mul_100_nearest m (k - s) Hm He) as (mx & k2 & Hx & Hk2 & Hmx & H2).
    set (E := k - s - 46 + k2) in *.
    exists (format_2f (S754_finite false mx E) +:+ "%"). split.
    + unfold percent_of. rewrite Hq. cbn [rbind]. rewrite Hx. reflexivity.
    + apply (two_decimal_percent_hundredths C P (hundredths mx E));
        [apply hundredths_nonneg |].
      pose proof (hundredths_nearest mx E) as H3.
      rewrite (Z.mul_comm (100 * Z.pos mx)), (Z.mul_comm 100 (Z.pos mx)) in H3.
      assert (0 < 2 ^ s ∧ 0 < 2 ^ k ∧ 0 < 2 ^ k2 ∧ 0 < 2 ^ Z.max (- E) 0)
        as (Ha & Hb & Hc & Hd) by (repeat split; apply Z.pow_pos_nonneg; lia).
      assert (2 ^ Z.max E 0 * 2 ^ s * 2 ^ 46 = 2 ^ Z.max (- E) 0 * 2 ^ k * 2 ^ k2)
        as Hrel by (rewrite <- !Z.pow_add_r by lia; f_equal; lia).
      destruct Hm as [Hm _]. destruct Hmx as [Hmx _]. clear HCb HPb Hq Hx.
      apply (percent_error_core C P (Z.pos m) (Z.pos mx) (hundredths mx E)
               (2 ^ s) (2 ^ k) (2 ^ k2) (2 ^ Z.max E 0) (2 ^ Z.max (- E) 0));
        first [assumption | lia].
Qed.

(** C5 — for the record selected by [most_populated], and for the one
    selected by [least_populated], whose three exposure fields and
    population are integers: the exposure count is the sum of the three
    fields; when the sum is not negative and the population is positive
    (both below [2^1000]) the percentage is a string of an integer part, a
    point, exactly two digits and a percent sign, whose value in hundredths
    [hd] satisfies [|hd/100 - 100 * sum / population| <= 0.005 +
    (100 * sum / population) * 2^-51], the half unit of the two decimals
    and the rounding of the floating-point division and multiplication; a
    sum of 10 over a population of 100 gives '10.00%'. *)
Theorem exposure_count_and_percent h data r a b c p :
  getitem h r industry_key = Ok (VInt a) →
  getitem h r railways_key = Ok (VInt b) →
  getitem h r road_key = Ok (VInt c) →
  getitem h r population_key = Ok (VInt p) →
  (most_populated h data = Ok r →
   most_populated_high_exposure_count h data = Ok (a + b + c) ∧
   (0 <= a + b + c < 2 ^ 1000 → 0 < p < 2 ^ 1000 →
    ∃ out, most_populated_high_exposure_percent h data = Ok out ∧
           two_decimal_percent (a + b + c) p out) ∧
   (a + b + c = 10 → p = 100 →
    most_populated_high_exposure_percent h data = Ok "10.00%")) ∧
  (least_populated h data = Ok r →
   least_populated_high_exposure_count h data = Ok (a + b + c) ∧
   (0 <= a + b + c < 2 ^ 1000 → 0 < p < 2 ^ 1000 →
    ∃ out, least_populated_high_exposure_percent h data = Ok out ∧
           two_decimal_percent (a + b + c) p out) ∧
   (a + b + c = 10 → p = 100 →
    least_populated_high_exposure_percent h data = Ok "10.00%")).
Proof.
  intros Ha Hb Hc Hp.
  pose proof (high_exposure_count_ints h r a b c Ha Hb Hc) as Hcount.
  pose proof (high_exposure_percent_int h r (a + b + c) p Hp) as Hpercent.
  split.
  - intros Hr. unfold most_populated_high_exposure_count,
      most_populated_high_exposure_percent.
    rewrite Hr. cbn [rbind]. rewrite Hcount. cbn [rbind]. rewrite Hpercent.
    split; [done | split].
    + apply percent_of_accurate.
    + intros -> ->. vm_compute. reflexivity.
  - intros Hr. unfold least_populated_high_exposure_count,
      least_populated_high_exposure_percent.
    rewrite Hr. cbn [rbind]. rewrite Hcount. cbn [rbind]. rewrite Hpercent.
    split; [done | split].
    + apply percent_of_accurate.
    + intros -> ->. vm_compute. reflexivity.
Qed.

Lemma exposure_count_and_percent_witness :
  getitem [example_row_a_clean] 0 industry_key = Ok (VInt 0) ∧
  getitem [example_row_a_clean] 0 railways_key = Ok (VInt 5) ∧
  getitem [example_row_a_clean] 0 road_key = Ok (VInt 5) ∧
  getitem [example_row_a_clean] 0 population_key = Ok (VInt 100) ∧
  most_populated [example_row_a_clean] [0%nat] = Ok 0%nat ∧
  (0 <= 0 + 5 + 5 < 2 ^ 1000) ∧ (0 < 100 < 2 ^ 1000) ∧
  most_populated_high_exposure_count [example_row_a_clean] [0%nat] = Ok (0 + 5 + 5) ∧
  (∃ out, most_populated_high_exposure_percent [example_row_a_clean] [0%nat] = Ok out ∧
          two_decimal_percent (0 + 5 + 5) 100 out) ∧
  most_populated_high_exposure_percent [example_row_a_clean] [0%nat] = Ok "10.00%".
Proof.
  assert (getitem [example_row_a_clean] 0 industry_key = Ok (VInt 0)) as Ha
    by (vm_compute; reflexivity).
  assert (getitem [example_row_a_clean] 0 railways_key = Ok (VInt 5)) as Hb
    by (vm_compute; reflexivity).
  assert (getitem [example_row_a_clean] 0 road_key = Ok (VInt 5)) as Hc
    by (vm_compute; reflexivity).
  assert (getitem [example_row_a_clean] 0 population_key = Ok (VInt 100)) as Hp
    by (vm_compute; reflexivity).
  assert (most_populated [example_row_a_clean] [0%nat] = Ok 0%nat) as Hr
    by (vm_compute; reflexivity).
  assert (0 <= 0 + 5 + 5 < 2 ^ 1000) as Hcb by (split; vm_compute; congruence).
  assert (0 < 100 < 2 ^ 1000) as Hpb by (split; vm_compute; congruence).
  destruct (proj1 (exposure_count_and_percent _ [0%nat] _ _ _ _ _ Ha Hb Hc Hp) Hr)
    as (Hcount & Hacc & Hten).
  split; [exact Ha | split; [exact Hb | split; [exact Hc | split; [exact Hp |]]]].
  split; [exact Hr | split; [exact Hcb | split; [exact Hpb |]]].
  split; [exact Hcount | split; [exact (Hacc Hcb Hpb) | exact (Hten eq_refl eq_refl)]].
Defined.

(** One exposed person in three: the quotient and the product are both
    rounded, and the hundredths are rounded half to even. *)
Example percent_of_examples :
  percent_of 1 3 = Ok "33.33%" ∧
  percent_of 2 3 = Ok "66.67%" ∧
  percent_of 1 8 = Ok "12.50%" ∧
  percent_of 1 1600 = Ok "0.06%" ∧
  percent_of 0 7 = Ok "0.00%" ∧
  percent_of 7 2 = Ok "350.00%".
Proof. repeat split; vm_compute; reflexivity. Qed.

(** The whole pipeline on the specification's example. *)
Example pipeline_example :
  most_populated_high_exposure_count (build example_reader []).2 [0%nat] = Ok 10 ∧
  most_populated_high_exposure_percent (build example_reader []).2 [0%nat] = Ok "10.00%" ∧
  least_populated_high_exposure_percent (build example_reader []).2 [0%nat] = Ok "10.00%".
Proof. repeat split; vm_compute; reflexivity. Qed.

(** The notebook's own output: 117400 of 9300000 is '1.26%', 200 of 105000
    is '0.19%'. *)
Example percent_of_notebook :
  percent_of 117400 9300000 = Ok "1.26%" ∧ percent_of 200 105000 = Ok "0.19%".
Proof. split; vm_compute; reflexivity. Qed.

(** The scan returns one of the items it was given. *)
Lemma min_max_loop_elem {A} op (key : A → result value) items : ∀ best bestval r,
  min_max_loop op key items best bestval = Ok r → r = best ∨ r ∈ items.
Proof.
  induction items as [| item rest IH]; intros best bestval r.
  - cbn. intros [= ->]. by left.
  - cbn [min_max_loop]. destruct (key item) as [val | e]; [| done].
    cbn [rbind]. destruct (op val bestval) as [[] | e]; [| | done]; cbn [rbind].
    + intros [-> | Hin]%IH; right; apply elem_of_cons; auto.
    + intros [-> | Hin]%IH; [by left | right; apply elem_of_cons; auto].
Qed.

Lemma min_max_elem {A} op (key : A → result value) items r :
  min_max op key items = Ok r → r ∈ items.
Proof.
  destruct items as [| item rest]; [done |]. cbn [min_max].
  destruct (key item) as [val | e]; [| done]. cbn [rbind].
  intros [-> | Hin]%min_max_loop_elem; apply elem_of_cons; auto.
Qed.

(** An exception of the scan comes from the key function or from the
    comparison; on an empty sequence it is [ValueError]. *)
Lemma min_max_loop_raises {A} op (key : A → result value) items : ∀ best bestval e,
  min_max_loop op key items best bestval = Raise e →
  (∃ x, key x = Raise e) ∨ (∃ a b, op a b = Raise e).
Proof.
  induction items as [| item rest IH]; intros best bestval e; [done |].
  cbn [min_max_loop]. destruct (key item) as [val | e'] eqn:Hk.
  - cbn [rbind]. destruct (op val bestval) as [[] | e''] eqn:Ho; cbn [rbind].
    + apply IH.
    + apply IH.
    + intros [= <-]. right. by exists val, bestval.
  - cbn [rbind]. intros [= <-]. left. by exists item.
Qed.

Lemma min_max_raises {A} op (key : A → result value) items e :
  min_max op key items = Raise e →
  (items = [] ∧ e = ValueError) ∨ (∃ x, key x = Raise e) ∨ (∃ a b, op a b = Raise e).
Proof.
  destruct items as [| item rest]; cbn [min_max].
  - intros [= <-]. by left.
  - destruct (key item) as [val | e'] eqn:Hk; cbn [rbind].
    + intros H. right. by eapply min_max_loop_raises.
    + intros [= <-]. right. left. by exists item.
Qed.

Lemma py_gt_raises a b e : py_gt a b = Raise e → e = TypeError.
Proof. destruct a, b; cbn; congruence. Qed.

Lemma py_lt_raises a b e : py_lt a b = Raise e → e = TypeError.
Proof. destruct a, b; cbn; congruence. Qed.

Lemma most_populated_raises h data e :
  most_populated h data = Raise e →
  e = ValueError ∨ e = KeyError ∨ e = TypeError ∨ e = Dangling.
Proof.
  intros [[_ ->] | [[x Hx] | (a & b & Hab)]]%min_max_raises.
  - by left.
  - apply getitem_raises in Hx as [-> | ->]; auto.
  - apply py_gt_raises in Hab as ->. auto.
Qed.

Lemma least_populated_raises h data e :
  least_populated h data = Raise e →
  e = ValueError ∨ e = KeyError ∨ e = TypeError ∨ e = Dangling.
Proof.
  intros [[_ ->] | [[x Hx] | (a & b & Hab)]]%min_max_raises.
  - by left.
  - apply getitem_raises in Hx as [-> | ->]; auto.
  - apply py_lt_raises in Hab as ->. auto.
Qed.

Lemma positive_populations_elem h data r :
  positive_populations h data = true → r ∈ data →
  ∃ p, getitem h r population_key = Ok (VInt p) ∧ 0 < p.
Proof.
  unfold positive_populations. rewrite forallb_forall. intros Hall Hr.
  apply list_elem_of_In in Hr. specialize (Hall r Hr).
  destruct (population h r) as [p |] eqn:Hp; [| done].
  exists p. split; [by apply key_int_Some in Hp | by apply Z.ltb_lt].
Qed.

Lemma selected_percent_no_division h data r :
  positive_populations h data = true → r ∈ data →
  (count ← high_exposure_count h r ;;; high_exposure_percent h r count)
  ≠ Raise ZeroDivisionError.
Proof.
  intros Hpos Hr. destruct (positive_populations_elem h data r Hpos Hr) as (p & Hp & Hlt).
  destruct (high_exposure_count h r) as [count | e] eqn:Hcount; cbn [rbind].
  - rewrite (high_exposure_percent_int h r count p Hp). intros H.
    apply percent_of_raises in H; [done | lia].
  - intros [= ->]. by apply high_exposure_count_no_division in Hcount.
Qed.

(** C8 — the percentage divides by the selected record's population with no
    guard: when every record of the dataset has a positive integer
    population neither percentage raises [ZeroDivisionError], and on a
    dataset whose extremal record has population 0 both raise it. *)
Theorem percent_division_unguarded :
  (∀ h data, positive_populations h data = true →
     most_populated_high_exposure_percent h data ≠ Raise ZeroDivisionError ∧
     least_populated_high_exposure_percent h data ≠ Raise ZeroDivisionError) ∧
  (∃ h data r,
     most_populated h data = Ok r ∧ least_populated h data = Ok r ∧
     getitem h r population_key = Ok (VInt 0) ∧
     most_populated_high_exposure_percent h data = Raise ZeroDivisionError ∧
     least_populated_high_exposure_percent h data = Raise ZeroDivisionError).
Proof.
  split.
  - intros h data Hpos. split.
    + unfold most_populated_high_exposure_percent.
      destruct (most_populated h data) as [r | e] eqn:Hr; cbn [rbind].
      * apply (selected_percent_no_division h data r Hpos).
        by apply min_max_elem in Hr.
      * intros [= ->]. by apply most_populated_raises in Hr as [? | [? | [? | ?]]].
    + unfold least_populated_high_exposure_percent.
      destruct (least_populated h data) as [r | e] eqn:Hr; cbn [rbind].
      * apply (selected_percent_no_division h data r Hpos).
        by apply min_max_elem in Hr.
      * intros [= ->]. by apply least_populated_raises in Hr as [? | [? | [? | ?]]].
  - exists [example_empty_town], [0%nat], 0%nat.
    repeat split; vm_compute; reflexivity.
Qed.

(** The guarded direction at a concrete dataset. *)
Lemma percent_division_unguarded_witness :
  positive_populations [example_row_a_clean] [0%nat] = true ∧
  most_populated_high_exposure_percent [example_row_a_clean] [0%nat]
    ≠ Raise ZeroDivisionError ∧
  least_populated_high_exposure_percent [example_row_a_clean] [0%nat]
    ≠ Raise ZeroDivisionError.
Proof.
  assert (positive_populations [example_row_a_clean] [0%nat] = true) as Hpos
    by (vm_compute; reflexivity).
  split; [exact Hpos |].
  exact (proj1 percent_division_unguarded [example_row_a_clean] [0%nat] Hpos).
Defined.

(** ** Further properties of the row cleaner *)

Lemma setitem_columns h row d k v :
  h !! row = Some d → is_Some (d !! k) →
  ∃ d', setitem h row k v !! row = Some d' ∧ dom d' = dom d.
Proof.
  intros Hrow Hk. rewrite (setitem_lookup h row d) by done.
  exists (<[k := v]> d). split.
  - apply list_lookup_insert_eq. by eapply lookup_lt_Some.
  - by apply dom_insert_lookup_L.
Qed.

Lemma clean_field_columns row k h d :
  h !! row = Some d →
  ∃ d', (clean_field row k h).2 !! row = Some d' ∧ dom d' = dom d.
Proof.
  intros Hrow. unfold clean_field, getitem. rewrite Hrow.
  destruct (d !! k) as [v |] eqn:Hk; [| by exists d].
  assert (∃ d1, (if py_eq v (VStr not_applicable)
                 then setitem h row k (VInt 0) else h) !! row = Some d1 ∧
                dom d1 = dom d) as (d1 & Hd1 & Hdom1).
  { destruct (py_eq v (VStr not_applicable)); [| by exists d].
    by apply setitem_columns. }
  destruct (py_int v) as [n | []]; cbn [snd]; try by exists d1.
  destruct (setitem_columns _ row d1 k (VInt n) Hd1) as (d2 & Hd2 & Hdom2).
  - apply elem_of_dom. rewrite Hdom1. apply elem_of_dom. by exists v.
  - exists d2. split; [done | congruence].
Qed.

Lemma for_each_clean_columns row ks : ∀ h d,
  h !! row = Some d →
  ∃ d', (for_each ks (clean_field row) h).2 !! row = Some d' ∧ dom d' = dom d.
Proof.
  induction ks as [| k ks IH]; intros h d Hrow; [by exists d |].
  cbn [for_each].
  destruct (clean_field_columns row k h d Hrow) as (d1 & Hd1 & Hdom1).
  destruct (clean_field row k h) as [[[] | e] h1]; cbn [snd] in *.
  - destruct (IH h1 d1 Hd1) as (d2 & Hd2 & Hdom2).
    exists d2. split; [done | congruence].
  - by exists d1.
Qed.

(** X1 — [clean] never adds or removes a column, whether it returns the record,
    drops it or raises. *)
Theorem clean_keeps_columns h row d :
  h !! row = Some d →
  column_set (clean row h).2 row = Some (dom d).
Proof.
  intros Hrow. unfold column_set.
  assert (∃ d', (clean row h).2 !! row = Some d' ∧ dom d' = dom d)
    as (d' & -> & <-); [| done].
  unfold clean. destruct (getitem h row location_key) as [v | e]; [| by exists d].
  destruct (py_eq v (VStr major_sources)); [by exists d |].
  destruct (for_each_clean_columns row (keys h row) h d Hrow) as (d' & Hd' & Hdom).
  destruct (for_each (keys h row) (clean_field row) h) as [[[] | e] h1];
    by exists d'.
Qed.

Lemma clean_keeps_columns_witness :
  [example_short_row] !! 0%nat = Some example_short_row ∧
  column_set (clean 0 [example_short_row]).2 0 = Some (dom example_short_row).
Proof.
  assert ([example_short_row] !! 0%nat = Some example_short_row) as Hrow
    by reflexivity.
  split; [exact Hrow |].
  exact (clean_keeps_columns _ _ _ Hrow).
Defined.

Lemma cleaned_record_all_clean d :
  all_values not_none d = true → all_values is_clean (cleaned_record d) = true.
Proof.
  intros Hnn. unfold all_values, cleaned_record. apply bool_decide_eq_true_2.
  intros k w. rewrite lookup_fmap. destruct (d !! k) as [u |] eqn:Hu; [| done].
  cbn. intros [= <-]. apply cleaned_value_is_clean. by eapply all_values_lookup.
Qed.

Lemma cleaned_record_not_dropped d :
  dropped d = false → dropped (cleaned_record d) = false.
Proof.
  intros Hd. unfold dropped at 1. apply bool_decide_eq_false_2.
  unfold cleaned_record. rewrite lookup_fmap.
  destruct (d !! location_key) as [v |] eqn:Hv; [| done].
  cbn. intros [= Hcv]. apply cleaned_value_str in Hcv as ->.
  apply dropped_true in Hv. congruence.
Qed.

Lemma cleaned_record_has_location d :
  has_location d = true → has_location (cleaned_record d) = true.
Proof.
  intros [v Hv]%has_location_lookup. unfold has_location, cleaned_record.
  rewrite lookup_fmap, Hv. by apply bool_decide_eq_true_2.
Qed.

Lemma cleanable_kept d :
  cleanable d = true → dropped d = false →
  has_location d = true ∧ all_values not_none d = true.
Proof.
  unfold cleanable. intros Hc Hd. rewrite Hd in Hc.
  by apply andb_true_iff in Hc.
Qed.

Lemma clean_ok_normalised h row d r h' :
  h !! row = Some d →
  clean row h = (Ok (Some r), h') →
  ∃ d', h' !! r = Some d' ∧
        has_location d' = true ∧ dropped d' = false ∧
        all_values is_clean d' = true.
Proof.
  intros Hrow Hc.
  pose proof (clean_ok_cleanable _ _ _ _ _ Hrow Hc) as Hcl.
  apply (clean_ok_some h row d) in Hc as (-> & Hd & ->); [| done].
  destruct (cleanable_kept d Hcl Hd) as [Hl Hnn].
  exists (cleaned_record d). split; [| split; [| split]].
  - apply list_lookup_insert_eq. by eapply lookup_lt_Some.
  - by apply cleaned_record_has_location.
  - by apply cleaned_record_not_dropped.
  - by apply cleaned_record_all_clean.
Qed.

(** X2 — The record [clean] returns is normalised: it has a location other than
    the sentinel, and every field is an integer or a string that is neither
    'n/a' nor readable as an integer. *)
Theorem clean_result_normalised h row d r h' :
  h !! row = Some d →
  clean row h = (Ok (Some r), h') →
  ∃ d', h' !! r = Some d' ∧
        has_location d' = true ∧ dropped d' = false ∧
        all_values is_clean d' = true.
Proof. apply clean_ok_normalised. Qed.

Lemma clean_result_normalised_witness :
  [example_row_a] !! 0%nat = Some example_row_a ∧
  clean 0 [example_row_a] = (Ok (Some 0%nat), (clean 0 [example_row_a]).2) ∧
  ∃ d', (clean 0 [example_row_a]).2 !! 0%nat = Some d' ∧
        has_location d' = true ∧ dropped d' = false ∧
        all_values is_clean d' = true.
Proof.
  assert ([example_row_a] !! 0%nat = Some example_row_a) as Hrow by reflexivity.
  assert (clean 0 [example_row_a] = (Ok (Some 0%nat), (clean 0 [example_row_a]).2)) as Hc
    by (apply (bool_decide_eq_true_1 _); vm_compute; reflexivity).
  split; [exact Hrow | split; [exact Hc |]].
  exact (clean_result_normalised _ _ _ _ _ Hrow Hc).
Defined.

(** X3 — Cleaning a second time is a no-op: on the record that a first call
    returned, [clean] returns the same reference and leaves the store as
    the first call left it. *)
Theorem clean_second_pass h row d r h' :
  h !! row = Some d →
  clean row h = (Ok (Some r), h') →
  clean r h' = (Ok (Some r), h').
Proof.
  intros Hrow Hc.
  destruct (clean_ok_normalised h row d r h' Hrow Hc) as (d' & Hd' & Hl & Hd & Hcl).
  rewrite (clean_kept h' r d'); [| done | | done].
  - by rewrite cleaned_record_clean, list_insert_id.
  - unfold cleanable. rewrite Hl, Hd. cbn [andb orb].
    eapply all_values_impl; [apply is_clean_not_none | done].
Qed.

Lemma clean_second_pass_witness :
  [example_row_a] !! 0%nat = Some example_row_a ∧
  clean 0 [example_row_a] = (Ok (Some 0%nat), (clean 0 [example_row_a]).2) ∧
  clean 0 (clean 0 [example_row_a]).2 = (Ok (Some 0%nat), (clean 0 [example_row_a]).2).
Proof.
  assert ([example_row_a] !! 0%nat = Some example_row_a) as Hrow by reflexivity.
  assert (clean 0 [example_row_a] = (Ok (Some 0%nat), (clean 0 [example_row_a]).2)) as Hc
    by (apply (bool_decide_eq_true_1 _); vm_compute; reflexivity).
  split; [exact Hrow | split; [exact Hc |]].
  exact (clean_second_pass _ _ _ _ _ Hrow Hc).
Defined.

Lemma clean_raises_on_none h row d key :
  h !! row = Some d →
  has_location d = true →
  dropped d = false →
  d !! key = Some VNone →
  (clean row h).1 = Raise TypeError.
Proof.
  intros Hrow [v Hv]%has_location_lookup Hd Hk.
  unfold clean, getitem.
  rewrite Hrow, Hv, (dropped_py_eq d), Hd, (keys_lookup h row d) by done.
  destruct (for_each_clean_none (map_to_list d).*1 h row d Hrow) as [h1 ->].
  - by intros k'; apply elem_of_keys.
  - exists key. split; [| done]. apply list_elem_of_fmap. exists (key, VNone).
    split; [done |]. by apply elem_of_map_to_list.
  - done.
Qed.

(** X4 — A [None] field in a record that is not dropped makes [clean] raise
    [TypeError]: only [ValueError] is caught around [int(value)]. *)
Theorem clean_none_raises h row d key :
  h !! row = Some d →
  has_location d = true →
  dropped d = false →
  d !! key = Some VNone →
  (clean row h).1 = Raise TypeError.
Proof. apply clean_raises_on_none. Qed.

Lemma clean_none_raises_witness :
  [example_short_row] !! 0%nat = Some example_short_row ∧
  has_location example_short_row = true ∧
  dropped example_short_row = false ∧
  example_short_row !! population_key = Some VNone ∧
  (clean 0 [example_short_row]).1 = Raise TypeError.
Proof.
  assert ([example_short_row] !! 0%nat = Some example_short_row) as Hrow
    by reflexivity.
  assert (has_location example_short_row = true) as Hl by (vm_compute; reflexivity).
  assert (dropped example_short_row = false) as Hd by (vm_compute; reflexivity).
  assert (example_short_row !! population_key = Some VNone) as Hk
    by (vm_compute; reflexivity).
  split; [exact Hrow | split; [exact Hl | split; [exact Hd | split; [exact Hk |]]]].
  exact (clean_none_raises _ _ _ _ Hrow Hl Hd Hk).
Defined.

(** ** Further properties of the loop that fills [data] *)

Lemma build_from_app pre : ∀ rest data h,
  forallb cleanable pre = true →
  build_from (pre ++ rest) data h =
  build_from rest (data ++ kept_from (length h) pre) (h ++ (stored <$> pre)).
Proof.
  induction pre as [| d pre IH]; intros rest data h Hall.
  - cbn. by rewrite !app_nil_r.
  - cbn [forallb] in Hall. apply andb_true_iff in Hall as [Hd Hall].
    cbn [app]. rewrite build_from_cons, IH by done.
    rewrite length_app, Nat.add_1_r. cbn [kept_from fmap list_fmap].
    by rewrite <- !app_assoc.
Qed.

Lemma has_location_false d : has_location d = false → d !! location_key = None.
Proof.
  unfold has_location. intros H. apply bool_decide_eq_false in H.
  by apply eq_None_not_Some.
Qed.

(** What [clean] raises on a record it cannot process. *)
Lemma clean_not_cleanable h row d :
  h !! row = Some d → cleanable d = false →
  (clean row h).1 = Raise (if has_location d then TypeError else KeyError).
Proof.
  intros Hrow Hc. unfold cleanable in Hc. destruct (has_location d) eqn:Hl.
  - cbn [andb] in Hc. apply orb_false_iff in Hc as [Hd Hnn].
    apply all_values_false in Hnn as (k & v & Hk & Hv).
    destruct v; try discriminate. by apply (clean_raises_on_none h row d k).
  - by rewrite (clean_no_location h row d) by (done || by apply has_location_false).
Qed.

Lemma build_from_fault d rest data h :
  cleanable d = false →
  (build_from (d :: rest) data h).1 =
  Raise (if has_location d then TypeError else KeyError).
Proof.
  intros Hc. cbn [build_from alloc].
  pose proof (clean_not_cleanable (h ++ [d]) (length h) d (alloc_lookup d h) Hc) as H.
  destruct (clean (length h) (h ++ [d])) as [[r | e] h1]; cbn [fst] in *; congruence.
Qed.

(** X5 — The loop has no handler: the first record that [clean] cannot process
    ends it with that record's exception, [KeyError] when the location
    column is missing and [TypeError] for a [None] field, and no dataset is
    produced, whatever follows in the input. *)
Theorem build_stops_at_fault pre d post h :
  forallb cleanable pre = true →
  cleanable d = false →
  (build (pre ++ d :: post) h).1 =
  Raise (if has_location d then TypeError else KeyError).
Proof.
  intros Hpre Hd. unfold build. rewrite build_from_app by done.
  by apply build_from_fault.
Qed.

Lemma build_stops_at_fault_witness :
  forallb cleanable [example_row_a] = true ∧
  cleanable example_no_location = false ∧
  (build ([example_row_a] ++ example_no_location :: [example_row_major]) []).1 =
  Raise (if has_location example_no_location then TypeError else KeyError).
Proof.
  assert (forallb cleanable [example_row_a] = true) as Hpre by (vm_compute; reflexivity).
  assert (cleanable example_no_location = false) as Hd by (vm_compute; reflexivity).
  split; [exact Hpre | split; [exact Hd |]].
  exact (build_stops_at_fault _ _ _ [] Hpre Hd).
Defined.

Lemma kept_from_length reader : ∀ base,
  length (kept_from base reader) = length (filter (λ d, dropped d = false) reader).
Proof.
  induction reader as [| d reader IH]; intros base; [done |].
  cbn [kept_from]. rewrite length_app, IH, filter_cons.
  destruct (dropped d).
  - by rewrite decide_False by done.
  - by rewrite decide_True by done.
Qed.

Lemma kept_from_NoDup reader : ∀ base, NoDup (kept_from base reader).
Proof.
  induction reader as [| d reader IH]; intros base; [constructor |].
  cbn [kept_from]. destruct (dropped d); [apply IH |].
  cbn [app]. apply NoDup_cons. split; [| apply IH].
  intros (j & d' & Hj & _)%elem_of_kept_from. lia.
Qed.

(** X6 — The dataset and the store after the loop: [rows] counts the records
    that are not dropped; the store has one new object per input record and
    its earlier objects are untouched; the dataset holds references to the
    new objects only, each at most once. *)
Theorem build_rows_and_store reader h data h' :
  build reader h = (Ok data, h') →
  rows data = length (filter (λ d, dropped d = false) reader) ∧
  length h' = (length h + length reader)%nat ∧
  (∀ l, (l < length h)%nat → h' !! l = h !! l) ∧
  NoDup data ∧
  ∀ l, l ∈ data → (length h ≤ l < length h')%nat.
Proof.
  intros (Hall & -> & ->)%build_ok. split; [| split; [| split; [| split]]].
  - apply kept_from_length.
  - by rewrite length_app, length_fmap.
  - intros l Hl. by apply lookup_app_l.
  - apply kept_from_NoDup.
  - intros l (j & d & -> & Hj & _)%elem_of_kept_from.
    apply lookup_lt_Some in Hj. rewrite length_app, length_fmap. lia.
Qed.

Lemma build_rows_and_store_witness :
  build example_reader [] = (Ok [0%nat], (build example_reader []).2) ∧
  rows [0%nat] = length (filter (λ d, dropped d = false) example_reader) ∧
  length (build example_reader []).2 = (length ([] : heap) + length example_reader)%nat ∧
  (∀ l, (l < length ([] : heap))%nat →
        (build example_reader []).2 !! l = ([] : heap) !! l) ∧
  NoDup [0%nat] ∧
  ∀ l, l ∈ [0%nat] →
       (length ([] : heap) ≤ l < length (build example_reader []).2)%nat.
Proof.
  assert (build example_reader [] = (Ok [0%nat], (build example_reader []).2)) as Hb
    by (apply (bool_decide_eq_true_1 _); vm_compute; reflexivity).
  split; [exact Hb |].
  exact (build_rows_and_store example_reader [] [0%nat] _ Hb).
Defined.

(** X7 — Every record of the dataset is normalised: it has a location other
    than the sentinel and only integers and strings that are neither 'n/a'
    nor readable as an integer. *)
Theorem dataset_normalised reader h data h' l :
  build reader h = (Ok data, h') →
  l ∈ data →
  ∃ d', h' !! l = Some d' ∧
        has_location d' = true ∧ dropped d' = false ∧
        all_values is_clean d' = true.
Proof.
  intros (Hall & -> & ->)%build_ok (j & d & -> & Hj & Hd)%elem_of_kept_from.
  rewrite forallb_forall in Hall.
  assert (cleanable d = true) as Hc.
  { apply Hall. apply list_elem_of_In. by eapply list_elem_of_lookup_2. }
  destruct (cleanable_kept d Hc Hd) as [Hl Hnn].
  exists (cleaned_record d). split; [| split; [| split]].
  - rewrite (stored_lookup h reader j d Hj). unfold stored. by rewrite Hd.
  - by apply cleaned_record_has_location.
  - by apply cleaned_record_not_dropped.
  - by apply cleaned_record_all_clean.
Qed.

Lemma dataset_normalised_witness :
  build example_reader [] = (Ok [0%nat], (build example_reader []).2) ∧
  0%nat ∈ [0%nat] ∧
  ∃ d', (build example_reader []).2 !! 0%nat = Some d' ∧
        has_location d' = true ∧ dropped d' = false ∧
        all_values is_clean d' = true.
Proof.
  assert (build example_reader [] = (Ok [0%nat], (build example_reader []).2)) as Hb
    by (apply (bool_decide_eq_true_1 _); vm_compute; reflexivity).
  assert (0%nat ∈ [0%nat]) as Hin by (apply list_elem_of_singleton; reflexivity).
  split; [exact Hb | split; [exact Hin |]].
  exact (dataset_normalised example_reader [] [0%nat] _ 0%nat Hb Hin).
Defined.

(** ** [columns], and the summary of an empty dataset *)

Lemma keys_length (h : heap) row (d : pydict) :
  h !! row = Some d → length (keys h row) = size d.
Proof.
  intros Hrow. rewrite (keys_lookup h row d Hrow), length_fmap.
  apply length_map_to_list.
Qed.

Lemma kept_from_head reader : ∀ base,
  match filter (λ d, dropped d = false) reader with
  | [] => kept_from base reader = []
  | d :: _ => ∃ j rest, kept_from base reader = (base + j)%nat :: rest ∧
                        reader !! j = Some d
  end.
Proof.
  induction reader as [| d reader IH]; intros base; [done |].
  rewrite filter_cons. cbn [kept_from]. destruct (dropped d) eqn:Hd.
  - rewrite decide_False by done. cbn [app]. specialize (IH (S base)).
    destruct (filter (λ d, dropped d = false) reader) as [| d0 ?]; [done |].
    destruct IH as (j & rest & -> & Hj). exists (S j), rest.
    split; [f_equal; lia | done].
  - rewrite decide_True by done. exists 0%nat, (kept_from (S base) reader).
    split; [by rewrite Nat.add_0_r | done].
Qed.

(** X8 — After the loop, [columns] is the number of columns of the first raw
    record that is not dropped (cleaning changes no key), and an
    [IndexError] from [data[0]] when there is none. *)
Theorem columns_of_built_dataset reader h data h' :
  build reader h = (Ok data, h') →
  columns h' data =
  match filter (λ d, dropped d = false) reader with
  | [] => Raise IndexError
  | d :: _ => Ok (size d)
  end.
Proof.
  intros (Hall & -> & ->)%build_ok.
  pose proof (kept_from_head reader (length h)) as Hhead.
  destruct (filter (λ d, dropped d = false) reader) as [| d rest] eqn:Hf.
  - by rewrite Hhead.
  - destruct Hhead as (j & rest' & -> & Hj).
    assert (dropped d = false) as Hd.
    { assert (d ∈ filter (λ d, dropped d = false) reader) as Hin
        by (rewrite Hf; apply elem_of_cons; by left).
      by apply list_elem_of_filter in Hin as [? _]. }
    unfold columns, py_index. cbn [lookup list_lookup rbind]. unfold len_keys.
    pose proof (stored_lookup h reader j d Hj) as Hs. rewrite Hs.
    rewrite (keys_length _ _ _ Hs). unfold stored. rewrite Hd.
    unfold cleaned_record. by rewrite map_size_fmap.
Qed.

Lemma columns_of_built_dataset_witness :
  build example_reader [] = (Ok [0%nat], (build example_reader []).2) ∧
  columns (build example_reader []).2 [0%nat] =
  match filter (λ d, dropped d = false) example_reader with
  | [] => Raise IndexError
  | d :: _ => Ok (size d)
  end.
Proof.
  assert (build example_reader [] = (Ok [0%nat], (build example_reader []).2)) as Hb
    by (apply (bool_decide_eq_true_1 _); vm_compute; reflexivity).
  split; [exact Hb |].
  exact (columns_of_built_dataset example_reader [] [0%nat] _ Hb).
Defined.

Lemma dropped_cleanable d : dropped d = true → cleanable d = true.
Proof.
  intros Hd. unfold cleanable. rewrite Hd, andb_true_r.
  apply dropped_true in Hd. unfold has_location. rewrite Hd.
  by apply bool_decide_eq_true_2.
Qed.

Lemma kept_from_all_dropped reader : ∀ base,
  forallb dropped reader = true →
  kept_from base reader = [] ∧ stored <$> reader = reader.
Proof.
  induction reader as [| d reader IH]; intros base Hall; [done |].
  cbn [forallb] in Hall. apply andb_true_iff in Hall as [Hd Hall].
  destruct (IH (S base) Hall) as [Hk Hs].
  cbn [kept_from fmap list_fmap]. fold (fmap (M := list) stored reader).
  rewrite Hk, Hs. unfold stored. by rewrite Hd.
Qed.

(** X9 — When every input record is the sentinel row, or there is no record at
    all, the loop ends normally with an empty dataset and the rows stored
    as they came; on that dataset [max] and [min] raise [ValueError] and
    [data[0]] raises [IndexError], so no statement is produced. *)
Theorem empty_dataset_summary reader h :
  forallb dropped reader = true →
  build reader h = (Ok [], h ++ reader) ∧
  rows [] = 0%nat ∧
  most_populated (h ++ reader) [] = Raise ValueError ∧
  least_populated (h ++ reader) [] = Raise ValueError ∧
  columns (h ++ reader) [] = Raise IndexError ∧
  statement (h ++ reader) [] = Raise IndexError.
Proof.
  intros Hall. split; [| by repeat split].
  destruct (kept_from_all_dropped reader (length h) Hall) as [Hk Hs].
  unfold build. rewrite build_from_total.
  - by rewrite Hk, Hs.
  - rewrite forallb_forall in Hall. apply forallb_forall.
    intros d Hd. apply dropped_cleanable. by apply Hall.
Qed.

Lemma empty_dataset_summary_witness :
  forallb dropped [example_row_major] = true ∧
  build [example_row_major] [] = (Ok [], [] ++ [example_row_major]) ∧
  rows [] = 0%nat ∧
  most_populated ([] ++ [example_row_major]) [] = Raise ValueError ∧
  least_populated ([] ++ [example_row_major]) [] = Raise ValueError ∧
  columns ([] ++ [example_row_major]) [] = Raise IndexError ∧
  statement ([] ++ [example_row_major]) [] = Raise IndexError.
Proof.
  assert (forallb dropped [example_row_major] = true) as Hall
    by (vm_compute; reflexivity).
  split; [exact Hall |].
  exact (empty_dataset_summary [example_row_major] [] Hall).
Defined.

(** ** Further properties of the extremal selection *)

Lemma first_maximal_bound h data r :
  first_maximal h data r →
  ∃ m, population h r = Some m ∧ r ∈ data ∧
       ∀ x, x ∈ data → ∃ p, population h x = Some p ∧ p <= m.
Proof.
  intros (pre & post & m & -> & Hr & Hpre & Hpost). exists m.
  split; [done |]. split.
  - apply elem_of_app. right. apply elem_of_cons. by left.
  - rewrite Forall_forall in Hpre, Hpost.
    intros x [Hx | [-> | Hx]%elem_of_cons]%elem_of_app.
    + destruct (Hpre x Hx) as (p & Hp & Hlt). exists p. split; [done | lia].
    + exists m. split; [done | lia].
    + by apply Hpost.
Qed.

Lemma first_minimal_bound h data r :
  first_minimal h data r →
  ∃ m, population h r = Some m ∧ r ∈ data ∧
       ∀ x, x ∈ data → ∃ p, population h x = Some p ∧ m <= p.
Proof.
  intros (pre & post & m & -> & Hr & Hpre & Hpost). exists m.
  split; [done |]. split.
  - apply elem_of_app. right. apply elem_of_cons. by left.
  - rewrite Forall_forall in Hpre, Hpost.
    intros x [Hx | [-> | Hx]%elem_of_cons]%elem_of_app.
    + destruct (Hpre x Hx) as (p & Hp & Hlt). exists p. split; [done | lia].
    + exists m. split; [done | lia].
    + by apply Hpost.
Qed.

Lemma int_populations_perm h data data' :
  data ≡ₚ data' → int_populations h data = true → int_populations h data' = true.
Proof.
  unfold int_populations. rewrite !forallb_forall. intros Hperm Hall x Hx.
  apply Hall. apply list_elem_of_In. rewrite Hperm. by apply list_elem_of_In.
Qed.

Lemma NoDup_fmap_inj_on {A B} (f : A → B) (l : list A) :
  NoDup (f <$> l) → ∀ x y, x ∈ l → y ∈ l → f x = f y → x = y.
Proof.
  induction l as [| a l IH]; intros Hnd x y Hx Hy Hf.
  - by apply elem_of_nil in Hx.
  - cbn in Hnd. apply NoDup_cons in Hnd as [Ha Hnd].
    apply elem_of_cons in Hx as [-> | Hx], Hy as [-> | Hy]; [done | | |].
    + exfalso. apply Ha. rewrite Hf. by apply list_elem_of_fmap_2.
    + exfalso. apply Ha. rewrite <- Hf. by apply list_elem_of_fmap_2.
    + by apply IH.
Qed.

(** X10 — When no two records have the same population, the selection does not
    depend on the order of the dataset: any rearrangement of it gives the
    same most populated and the same least populated record. *)
Theorem extremal_selection_order_independent h data data' :
  data ≡ₚ data' →
  int_populations h data = true →
  NoDup (population h <$> data) →
  most_populated h data' = most_populated h data ∧
  least_populated h data' = least_populated h data.
Proof.
  intros Hperm Hint Hnd.
  pose proof (NoDup_fmap_inj_on (population h) data Hnd) as Hinj.
  destruct data as [| x0 data0].
  { apply Permutation_nil_l in Hperm as ->. done. }
  assert (data' ≠ []) as Hne'.
  { intros ->. by apply Permutation_nil_r in Hperm. }
  pose proof (int_populations_perm _ _ _ Hperm Hint) as Hint'.
  split.
  - destruct (most_populated_first h (x0 :: data0)) as (r & -> & Hr); [done.. |].
    destruct (most_populated_first h data' Hne' Hint') as (r' & -> & Hr').
    apply first_maximal_bound in Hr as (m & Hm & Hin & Hle).
    apply first_maximal_bound in Hr' as (m' & Hm' & Hin' & Hle').
    rewrite <- Hperm in Hin'. f_equal. apply Hinj; [done.. |].
    destruct (Hle r' Hin') as (p & Hp & Hpm).
    assert (r ∈ data') as Hrin by (by rewrite <- Hperm).
    destruct (Hle' r Hrin) as (p' & Hp' & Hpm').
    rewrite Hm, Hm'. f_equal. rewrite Hm' in Hp. rewrite Hm in Hp'.
    injection Hp as <-. injection Hp' as <-. lia.
  - destruct (least_populated_first h (x0 :: data0)) as (r & -> & Hr); [done.. |].
    destruct (least_populated_first h data' Hne' Hint') as (r' & -> & Hr').
    apply first_minimal_bound in Hr as (m & Hm & Hin & Hle).
    apply first_minimal_bound in Hr' as (m' & Hm' & Hin' & Hle').
    rewrite <- Hperm in Hin'. f_equal. apply Hinj; [done.. |].
    destruct (Hle r' Hin') as (p & Hp & Hpm).
    assert (r ∈ data') as Hrin by (by rewrite <- Hperm).
    destruct (Hle' r Hrin) as (p' & Hp' & Hpm').
    rewrite Hm, Hm'. f_equal. rewrite Hm' in Hp. rewrite Hm in Hp'.
    injection Hp as <-. injection Hp' as <-. lia.
Qed.

Lemma extremal_selection_order_independent_witness :
  [0; 1]%nat ≡ₚ [1; 0]%nat ∧
  int_populations example_two_towns [0; 1]%nat = true ∧
  NoDup (population example_two_towns <$> [0; 1]%nat) ∧
  most_populated example_two_towns [1; 0]%nat =
    most_populated example_two_towns [0; 1]%nat ∧
  least_populated example_two_towns [1; 0]%nat =
    least_populated example_two_towns [0; 1]%nat.
Proof.
  assert ([0; 1]%nat ≡ₚ [1; 0]%nat) as Hperm by apply perm_swap.
  assert (int_populations example_two_towns [0; 1]%nat = true) as Hint
    by (vm_compute; reflexivity).
  assert (NoDup (population example_two_towns <$> [0; 1]%nat)) as Hnd
    by (apply (bool_decide_unpack _); vm_compute; exact I).
  split; [exact Hperm | split; [exact Hint | split; [exact Hnd |]]].
  exact (extremal_selection_order_independent _ _ _ Hperm Hint Hnd).
Defined.

(** The specification's two records, populations 9300000 and 105000, in
    both orders. *)
Example extremal_selection_two_towns :
  most_populated example_two_towns [0; 1]%nat = Ok 0%nat ∧
  most_populated example_two_towns [1; 0]%nat = Ok 0%nat ∧
  least_populated example_two_towns [0; 1]%nat = Ok 1%nat ∧
  least_populated example_two_towns [1; 0]%nat = Ok 1%nat.
Proof. repeat split; vm_compute; reflexivity. Qed.

(** X11 — When all records have the same population, the first record of the
    dataset is both the most and the least populated; in particular on a
    dataset of one record. *)
Theorem equal_populations_select_first h x rest m :
  forallb (λ y, bool_decide (population h y = Some m)) (x :: rest) = true →
  most_populated h (x :: rest) = Ok x ∧ least_populated h (x :: rest) = Ok x.
Proof.
  intros Hall. rewrite forallb_forall in Hall.
  assert (∀ y, y ∈ x :: rest → population h y = Some m) as Hpop.
  { intros y Hy%list_elem_of_In. apply (bool_decide_eq_true_1 _). by apply Hall. }
  assert (int_populations h (x :: rest) = true) as Hint.
  { apply forallb_forall. intros y Hy. apply bool_decide_eq_true_2.
    rewrite (Hpop y) by (by apply list_elem_of_In). done. }
  split.
  - destruct (most_populated_first h (x :: rest)) as (r & -> & Hr); [done.. |].
    destruct Hr as (pre & post & m' & Heq & Hm' & Hpre & _).
    destruct pre as [| y pre]; [by injection Heq as -> |].
    injection Heq as <- Heq. apply Forall_cons in Hpre as [(p & Hp & Hlt) _].
    rewrite (Hpop x) in Hp by (apply elem_of_cons; by left).
    rewrite (Hpop r) in Hm'.
    + injection Hp as <-. injection Hm' as <-. lia.
    + rewrite Heq. apply elem_of_cons. right. apply elem_of_app. right.
      apply elem_of_cons. by left.
  - destruct (least_populated_first h (x :: rest)) as (r & -> & Hr); [done.. |].
    destruct Hr as (pre & post & m' & Heq & Hm' & Hpre & _).
    destruct pre as [| y pre]; [by injection Heq as -> |].
    injection Heq as <- Heq. apply Forall_cons in Hpre as [(p & Hp & Hlt) _].
    rewrite (Hpop x) in Hp by (apply elem_of_cons; by left).
    rewrite (Hpop r) in Hm'.
    + injection Hp as <-. injection Hm' as <-. lia.
    + rewrite Heq. apply elem_of_cons. right. apply elem_of_app. right.
      apply elem_of_cons. by left.
Qed.

Lemma equal_populations_select_first_witness :
  forallb (λ y, bool_decide (population example_ties y = Some 9)) [1; 2]%nat = true ∧
  most_populated example_ties [1; 2]%nat = Ok 1%nat ∧
  least_populated example_ties [1; 2]%nat = Ok 1%nat.
Proof.
  assert (forallb (λ y, bool_decide (population example_ties y = Some 9)) [1; 2]%nat
          = true) as Hall by (vm_compute; reflexivity).
  split; [exact Hall |].
  exact (equal_populations_select_first example_ties 1%nat [2%nat] 9 Hall).
Defined.

(** *** Exceptions of the selection *)

(** Over items with integer keys the scan only moves its candidate. *)
Lemma min_max_loop_int_prefix {A} op (key : A → result value) pre :
  (∀ a b, ∃ c, op (VInt a) (VInt b) = Ok c) →
  Forall (λ x, is_Some (key_int key x)) pre →
  ∀ rest best m, ∃ best' m',
    min_max_loop op key (pre ++ rest) best (VInt m) =
    min_max_loop op key rest best' (VInt m').
Proof.
  intros Hop. induction pre as [| x pre IH]; intros Hint rest best m.
  - by exists best, m.
  - apply Forall_cons in Hint as [[p Hp] Hint]. cbn [app min_max_loop].
    rewrite (key_int_Some _ _ _ Hp). cbn [rbind].
    destruct (Hop p m) as [c ->]. cbn [rbind]. destruct c; by apply IH.
Qed.

Lemma min_max_key_raises {A} op (key : A → result value) pre y post e :
  (∀ a b, ∃ c, op (VInt a) (VInt b) = Ok c) →
  Forall (λ x, is_Some (key_int key x)) pre →
  key y = Raise e →
  min_max op key (pre ++ y :: post) = Raise e.
Proof.
  intros Hop Hint Hy. destruct pre as [| x pre].
  - cbn [app min_max]. by rewrite Hy.
  - apply Forall_cons in Hint as [[m Hm] Hint]. cbn [app min_max].
    rewrite (key_int_Some _ _ _ Hm). cbn [rbind].
    destruct (min_max_loop_int_prefix op key pre Hop Hint (y :: post) x m)
      as (best & m' & ->).
    cbn [min_max_loop]. by rewrite Hy.
Qed.

Lemma min_max_compare_raises {A} op (key : A → result value) pre y post v e :
  (∀ a b, ∃ c, op (VInt a) (VInt b) = Ok c) →
  pre ≠ [] →
  Forall (λ x, is_Some (key_int key x)) pre →
  key y = Ok v →
  (∀ m, op v (VInt m) = Raise e) →
  min_max op key (pre ++ y :: post) = Raise e.
Proof.
  intros Hop Hne Hint Hy Hv. destruct pre as [| x pre]; [done |].
  apply Forall_cons in Hint as [[m Hm] Hint]. cbn [app min_max].
  rewrite (key_int_Some _ _ _ Hm). cbn [rbind].
  destruct (min_max_loop_int_prefix op key pre Hop Hint (y :: post) x m)
    as (best & m' & ->).
  cbn [min_max_loop]. rewrite Hy. cbn [rbind]. by rewrite Hv.
Qed.

Lemma py_gt_int a b : ∃ c, py_gt (VInt a) (VInt b) = Ok c.
Proof. by eexists. Qed.

Lemma py_lt_int a b : ∃ c, py_lt (VInt a) (VInt b) = Ok c.
Proof. by eexists. Qed.

(** X12 — A record without the population column makes both selections raise
    [KeyError], wherever it stands in the dataset, when the records before
    it have integer populations. *)
Theorem population_missing_raises h pre y post d :
  int_populations h pre = true →
  h !! y = Some d →
  d !! population_key = None →
  most_populated h (pre ++ y :: post) = Raise KeyError ∧
  least_populated h (pre ++ y :: post) = Raise KeyError.
Proof.
  intros Hint%int_populations_Forall Hy Hd.
  assert (itemgetter h population_key y = Raise KeyError) as Hkey
    by (unfold itemgetter, getitem; by rewrite Hy, Hd).
  split.
  - by apply min_max_key_raises; [apply py_gt_int | |].
  - by apply min_max_key_raises; [apply py_lt_int | |].
Qed.

Lemma population_missing_raises_witness :
  int_populations example_mixed [0%nat] = true ∧
  example_mixed !! 2%nat = Some example_no_population ∧
  example_no_population !! population_key = None ∧
  most_populated example_mixed ([0%nat] ++ 2%nat :: [1%nat]) = Raise KeyError ∧
  least_populated example_mixed ([0%nat] ++ 2%nat :: [1%nat]) = Raise KeyError.
Proof.
  assert (int_populations example_mixed [0%nat] = true) as Hint
    by (vm_compute; reflexivity).
  assert (example_mixed !! 2%nat = Some example_no_population) as Hy by reflexivity.
  assert (example_no_population !! population_key = None) as Hd
    by (vm_compute; reflexivity).
  split; [exact Hint | split; [exact Hy | split; [exact Hd |]]].
  exact (population_missing_raises example_mixed [0%nat] 2%nat [1%nat] _ Hint Hy Hd).
Defined.

(** X13 — A population that is not an integer (a string that did not coerce, or
    [None]) after at least one integer population makes both selections
    raise [TypeError]: Python does not order an [int] and a [str]. *)
Theorem population_not_int_raises h pre y post v :
  pre ≠ [] →
  int_populations h pre = true →
  getitem h y population_key = Ok v →
  is_int v = false →
  most_populated h (pre ++ y :: post) = Raise TypeError ∧
  least_populated h (pre ++ y :: post) = Raise TypeError.
Proof.
  intros Hne Hint%int_populations_Forall Hy Hv.
  split.
  - apply (min_max_compare_raises py_gt _ pre y post v); try done.
    + apply py_gt_int.
    + intros m. by destruct v.
  - apply (min_max_compare_raises py_lt _ pre y post v); try done.
    + apply py_lt_int.
    + intros m. by destruct v.
Qed.

Lemma population_not_int_raises_witness :
  [0%nat] ≠ [] ∧
  int_populations example_mixed [0%nat] = true ∧
  getitem example_mixed 1 population_key = Ok (VStr "unknown") ∧
  is_int (VStr "unknown") = false ∧
  most_populated example_mixed ([0%nat] ++ 1%nat :: []) = Raise TypeError ∧
  least_populated example_mixed ([0%nat] ++ 1%nat :: []) = Raise TypeError.
Proof.
  assert ([0%nat] ≠ []) as Hne by discriminate.
  assert (int_populations example_mixed [0%nat] = true) as Hint
    by (vm_compute; reflexivity).
  assert (getitem example_mixed 1 population_key = Ok (VStr "unknown")) as Hy
    by (vm_compute; reflexivity).
  assert (is_int (VStr "unknown") = false) as Hv by reflexivity.
  split; [exact Hne | split; [exact Hint | split; [exact Hy | split; [exact Hv |]]]].
  exact (population_not_int_raises example_mixed [0%nat] 1%nat [] _ Hne Hint Hy Hv).
Defined.

(** A dataset of one record whose population is a string: nothing is
    compared, the record is selected, and the fault only shows at the
    division. *)
Example single_string_population :
  most_populated example_mixed [1%nat] = Ok 1%nat ∧
  high_exposure_percent example_mixed 1 2 = Raise TypeError.
Proof. split; vm_compute; reflexivity. Qed.

(** ** Further properties of the exposure counts and percentages *)

Lemma cleaned_value_exposure s n :
  exposure_of s = Some n → cleaned_value (VStr s) = VInt n.
Proof.
  unfold exposure_of. cbn [cleaned_value]. case_bool_decide.
  - by intros [= <-].
  - by intros ->.
Qed.

(** X14 — Cleaning followed by counting: in a record that [clean] returned, the
    exposure count is the sum of the three raw fields read as numbers, an
    'n/a' counting as 0. *)
Theorem marker_counts_as_zero h row d r h' sa sb sc a b c :
  h !! row = Some d →
  clean row h = (Ok (Some r), h') →
  d !! industry_key = Some (VStr sa) →
  d !! railways_key = Some (VStr sb) →
  d !! road_key = Some (VStr sc) →
  exposure_of sa = Some a →
  exposure_of sb = Some b →
  exposure_of sc = Some c →
  high_exposure_count h' r = Ok (a + b + c).
Proof.
  intros Hrow Hc Ha Hb Hcc Hea Heb Hec.
  apply (clean_ok_some h row d) in Hc as (-> & _ & ->); [| done].
  apply high_exposure_count_ints.
  - by rewrite (getitem_cleaned h row d _ (VStr sa)), (cleaned_value_exposure sa a).
  - by rewrite (getitem_cleaned h row d _ (VStr sb)), (cleaned_value_exposure sb b).
  - by rewrite (getitem_cleaned h row d _ (VStr sc)), (cleaned_value_exposure sc c).
Qed.

Lemma marker_counts_as_zero_witness :
  [example_row_a] !! 0%nat = Some example_row_a ∧
  clean 0 [example_row_a] = (Ok (Some 0%nat), (clean 0 [example_row_a]).2) ∧
  example_row_a !! industry_key = Some (VStr "n/a") ∧
  example_row_a !! railways_key = Some (VStr "5") ∧
  example_row_a !! road_key = Some (VStr "5") ∧
  exposure_of "n/a" = Some 0 ∧
  exposure_of "5" = Some 5 ∧
  exposure_of "5" = Some 5 ∧
  high_exposure_count (clean 0 [example_row_a]).2 0 = Ok (0 + 5 + 5).
Proof.
  assert ([example_row_a] !! 0%nat = Some example_row_a) as Hrow by reflexivity.
  assert (clean 0 [example_row_a] = (Ok (Some 0%nat), (clean 0 [example_row_a]).2)) as Hc
    by (apply (bool_decide_eq_true_1 _); vm_compute; reflexivity).
  assert (example_row_a !! industry_key = Some (VStr "n/a")) as Ha
    by (vm_compute; reflexivity).
  assert (example_row_a !! railways_key = Some (VStr "5")) as Hb
    by (vm_compute; reflexivity).
  assert (example_row_a !! road_key = Some (VStr "5")) as Hcc
    by (vm_compute; reflexivity).
  assert (exposure_of "n/a" = Some 0) as Hea by (vm_compute; reflexivity).
  assert (exposure_of "5" = Some 5) as Heb by (vm_compute; reflexivity).
  repeat (split; [eassumption |]).
  exact (marker_counts_as_zero _ _ _ _ _ _ _ _ _ _ _ Hrow Hc Ha Hb Hcc Hea Heb Heb).
Defined.

(** X15 — The faults of the exposure count: a missing exposure column is a
    [KeyError], also when another exposure field is not a number, because
    the three fields are read before they are added; with the three columns
    present, a field that is not an integer is a [TypeError]. *)
Theorem high_exposure_count_faults h r d :
  h !! r = Some d →
  (d !! industry_key = None ∨ d !! railways_key = None ∨ d !! road_key = None →
   high_exposure_count h r = Raise KeyError) ∧
  (∀ va vb vc,
     d !! industry_key = Some va → d !! railways_key = Some vb →
     d !! road_key = Some vc →
     is_int va && is_int vb && is_int vc = false →
     high_exposure_count h r = Raise TypeError).
Proof.
  intros Hr. unfold high_exposure_count, getitem. rewrite Hr. split.
  - intros Hmiss.
    destruct (d !! industry_key) as [va |]; [| done]. cbn [rbind].
    destruct (d !! railways_key) as [vb |]; [| done]. cbn [rbind].
    destruct (d !! road_key) as [vc |]; [| done].
    by destruct Hmiss as [? | [? | ?]].
  - intros va vb vc -> -> -> Hint. cbn [rbind].
    by destruct va, vb, vc.
Qed.

Lemma high_exposure_count_faults_witness :
  example_mixed !! 1%nat = Some example_unknown_town ∧
  (example_unknown_town !! industry_key = None ∨
   example_unknown_town !! railways_key = None ∨
   example_unknown_town !! road_key = None →
   high_exposure_count example_mixed 1 = Raise KeyError) ∧
  (∀ va vb vc,
     example_unknown_town !! industry_key = Some va →
     example_unknown_town !! railways_key = Some vb →
     example_unknown_town !! road_key = Some vc →
     is_int va && is_int vb && is_int vc = false →
     high_exposure_count example_mixed 1 = Raise TypeError).
Proof.
  assert (example_mixed !! 1%nat = Some example_unknown_town) as Hr by reflexivity.
  split; [exact Hr |].
  exact (high_exposure_count_faults example_mixed 1%nat _ Hr).
Defined.

(** A raw exposure field that is neither a number nor 'n/a' survives
    cleaning as a string and makes the count raise; a record without the
    exposure columns raises [KeyError]. *)
Example high_exposure_count_examples :
  high_exposure_count example_mixed 1 = Raise TypeError ∧
  high_exposure_count example_mixed 0 = Raise KeyError.
Proof. split; vm_compute; reflexivity. Qed.

(** X16 — With nobody exposed and a positive population the percentage is
    '0.00%'. *)
Theorem zero_exposure_percent h r p :
  getitem h r population_key = Ok (VInt p) →
  0 < p →
  high_exposure_percent h r 0 = Ok "0.00%".
Proof.
  intros Hp Hpos. rewrite (high_exposure_percent_int h r 0 p Hp).
  unfold percent_of, int_truediv.
  rewrite (proj2 (Z.eqb_neq p 0)) by lia.
  rewrite (proj2 (Z.ltb_ge p 0)) by lia.
  reflexivity.
Qed.

Lemma zero_exposure_percent_witness :
  getitem example_ties 0 population_key = Ok (VInt 5) ∧
  0 < 5 ∧
  high_exposure_percent example_ties 0 0 = Ok "0.00%".
Proof.
  assert (getitem example_ties 0 population_key = Ok (VInt 5)) as Hp
    by (vm_compute; reflexivity).
  assert (0 < 5) as Hpos by lia.
  split; [exact Hp | split; [exact Hpos |]].
  exact (zero_exposure_percent example_ties 0%nat 5 Hp Hpos).
Defined.

(** ** The statement *)

Lemma getitem_lookup h r d k v :
  h !! r = Some d → d !! k = Some v → getitem h r k = Ok v.
Proof. intros Hr Hk. unfold getitem. by rewrite Hr, Hk. Qed.

(** X17 — On a dataset of one record whose population and exposure fields
    are integers, the statement counts one agglomeration and as many
    columns as the record has keys, and it reports that record, its count
    and its percentage both as the most and as the least populated one.  It
    is produced exactly when the percentage can be computed, which is the
    case for an exposure sum that is not negative and a positive population
    (both below [2^1000]), with the percentage accurate to two decimals;
    otherwise the cell ends with the exception of the percentage,
    [ZeroDivisionError] for a population of 0. *)
Theorem statement_single_record h x d name p a b c :
  h !! x = Some d →
  d !! location_key = Some name →
  d !! population_key = Some (VInt p) →
  d !! industry_key = Some (VInt a) →
  d !! railways_key = Some (VInt b) →
  d !! road_key = Some (VInt c) →
  statement h [x] =
    (pct ← percent_of (a + b + c) p ;;;
     Ok (render_statement (size d) 1
           name (VInt p) (a + b + c) pct
           name (VInt p) (a + b + c) pct)) ∧
  (0 <= a + b + c < 2 ^ 1000 → 0 < p < 2 ^ 1000 →
   ∃ pct, two_decimal_percent (a + b + c) p pct ∧
          statement h [x] =
            Ok (render_statement (size d) 1
                  name (VInt p) (a + b + c) pct
                  name (VInt p) (a + b + c) pct)) ∧
  (p = 0 → statement h [x] = Raise ZeroDivisionError).
Proof.
  intros Hx Hname Hp Ha Hb Hc.
  pose proof (getitem_lookup h x d _ _ Hx Hp) as Hgp.
  pose proof (getitem_lookup h x d _ _ Hx Hname) as Hgn.
  pose proof (high_exposure_count_ints h x a b c
                (getitem_lookup h x d _ _ Hx Ha)
                (getitem_lookup h x d _ _ Hx Hb)
                (getitem_lookup h x d _ _ Hx Hc)) as Hcount.
  pose proof (high_exposure_percent_int h x (a + b + c) p Hgp) as Hpercent.
  assert (statement h [x] =
          (pct ← percent_of (a + b + c) p ;;;
           Ok (render_statement (size d) 1
                 name (VInt p) (a + b + c) pct
                 name (VInt p) (a + b + c) pct))) as Hst.
  { unfold statement, columns, py_index, len_keys. cbn [lookup list_lookup rbind].
    rewrite Hx, (keys_length h x d Hx). cbn [rbind].
    unfold most_populated, least_populated, py_max, py_min, min_max, itemgetter.
    rewrite Hgp. cbn [rbind min_max_loop].
    rewrite Hcount. cbn [rbind]. rewrite Hpercent.
    destruct (percent_of (a + b + c) p) as [pct | e]; [| done]. cbn [rbind].
    rewrite Hgn. cbn [rbind]. rewrite Hgp. reflexivity. }
  split; [exact Hst | split].
  - intros Hcb Hpb.
    destruct (percent_of_accurate (a + b + c) p Hcb Hpb) as (pct & Hpct & Hacc).
    exists pct. split; [exact Hacc |]. by rewrite Hst, Hpct.
  - intros ->. rewrite Hst. unfold percent_of. by rewrite int_truediv_zero.
Qed.

Lemma statement_single_record_witness :
  [example_row_a_clean] !! 0%nat = Some example_row_a_clean ∧
  example_row_a_clean !! location_key = Some (VStr "A") ∧
  example_row_a_clean !! population_key = Some (VInt 100) ∧
  example_row_a_clean !! industry_key = Some (VInt 0) ∧
  example_row_a_clean !! railways_key = Some (VInt 5) ∧
  example_row_a_clean !! road_key = Some (VInt 5) ∧
  percent_of (0 + 5 + 5) 100 = Ok "10.00%" ∧
  (0 <= 0 + 5 + 5 < 2 ^ 1000) ∧ (0 < 100 < 2 ^ 1000) ∧
  statement [example_row_a_clean] [0%nat] =
    (pct ← percent_of (0 + 5 + 5) 100 ;;;
     Ok (render_statement (size example_row_a_clean) 1
           (VStr "A") (VInt 100) (0 + 5 + 5) pct
           (VStr "A") (VInt 100) (0 + 5 + 5) pct)) ∧
  ∃ pct, two_decimal_percent (0 + 5 + 5) 100 pct ∧
         statement [example_row_a_clean] [0%nat] =
           Ok (render_statement (size example_row_a_clean) 1
                 (VStr "A") (VInt 100) (0 + 5 + 5) pct
                 (VStr "A") (VInt 100) (0 + 5 + 5) pct).
Proof.
  assert ([example_row_a_clean] !! 0%nat = Some example_row_a_clean) as Hx
    by reflexivity.
  assert (example_row_a_clean !! location_key = Some (VStr "A")) as Hname
    by (vm_compute; reflexivity).
  assert (example_row_a_clean !! population_key = Some (VInt 100)) as Hp
    by (vm_compute; reflexivity).
  assert (example_row_a_clean !! industry_key = Some (VInt 0)) as Ha
    by (vm_compute; reflexivity).
  assert (example_row_a_clean !! railways_key = Some (VInt 5)) as Hb
    by (vm_compute; reflexivity).
  assert (example_row_a_clean !! road_key = Some (VInt 5)) as Hc
    by (vm_compute; reflexivity).
  assert (percent_of (0 + 5 + 5) 100 = Ok "10.00%") as Hpct
    by (vm_compute; reflexivity).
  assert (0 <= 0 + 5 + 5 < 2 ^ 1000) as Hcb by (split; vm_compute; congruence).
  assert (0 < 100 < 2 ^ 1000) as Hpb by (split; vm_compute; congruence).
  repeat (split; [eassumption |]).
  destruct (statement_single_record _ _ _ _ _ _ _ _ Hx Hname Hp Ha Hb Hc)
    as (Hst & Hacc & _).
  split; [exact Hst | exact (Hacc Hcb Hpb)].
Defined.

(** The statement of that record, as text. *)
Example statement_single_record_text :
  statement [example_row_a_clean] [0%nat] =
    Ok (render_statement (size example_row_a_clean) 1
          (VStr "A") (VInt 100) 10 "10.00%" (VStr "A") (VInt 100) 10 "10.00%").
Proof. apply (bool_decide_eq_true_1 _). vm_compute. reflexivity. Qed.

(** A single record with population 0: all its fields are integers and no
    statement is produced. *)
Example statement_population_zero :
  statement [example_empty_town] [0%nat] = Raise ZeroDivisionError.
Proof. vm_compute. reflexivity. Qed.

(** The text the notebook recorded for its run (32 columns, 65 rows,
    Greater London Urban Area and Chesterfield/Staveley). *)
Example statement_notebook_output :
  render_statement 32 65
    (VStr "Greater London Urban Area") (VInt 9300000) 117400 "1.26%"
    (VStr "Chesterfield/Staveley") (VInt 105000) 200 "0.19%" =
  "The data holds 32 columns of data for 65 different " +:+ dquote +:+
  "Agglomerations" +:+ dquote +:+ ".  The most populated " +:+ dquote +:+
  "Agglomeration" +:+ dquote +:+ " is " +:+ dquote +:+
  "Greater London Urban Area" +:+ dquote +:+
  " with a population of 9300000. Out of this population, 117400 (1.26%) " +:+
  "people are exposed to very high levels of noise pollution from industry, " +:+
  "railway and road sources. The least populated " +:+ dquote +:+
  "Agglomeration" +:+ dquote +:+ " is " +:+ dquote +:+
  "Chesterfield/Staveley" +:+ dquote +:+
  " with a population of 105000. Out of this population, 200 (0.19%) " +:+
  "people are exposed to very high levels of noise pollution from industry, " +:+
  "railway and road sources.".
Proof. vm_compute. reflexivity. Qed.
